(** * bma_client: job interpretation, image geometry and EXIF grouping

    A shallow embedding of the computational core of [src/bma_client.py]
    ([handle_job], [handle_image_conversion_job], [get_exif]) together with
    the parts of the Python standard library ([fractions.Fraction],
    [math.floor], [str.split]) and of Pillow ([ImageOps.exif_transpose],
    [ImageOps.fit], [Image.thumbnail]) whose results these methods depend on.

    Conventions.
    - Python [int] is [Z]; [fractions.Fraction] is an exact rational [Q],
      reduced with [Qred] the way the constructor reduces by the gcd.
    - A Python [dict] with string keys is a [gmap string _]; the flat tag
      dictionary returned by exifread is an association list, because the
      loop of [get_exif] visits it in insertion order.
    - Effects are explicit: a computation yields the list of the events it
      emitted (log records, calls into Pillow or exifread) and either a
      returned value or the exception it raised. *)

From Stdlib Require Import ZArith QArith Qround Qabs Lia Lqa Ascii String.
From stdpp Require Import base option list strings pretty gmap fin_maps.

Local Open Scope Z_scope.

(** ** Exceptions, events and the computation monad *)

Inductive exn : Type :=
  | ZeroDivisionError
  | ValueError
  | TypeError
  | IndexError
  | KeyError (key : string)
  | UnidentifiedImageError.

Inductive level : Type := DEBUG | WARNING | ERROR.

(** What a run leaves behind, in order: records sent to the
    ["bma_client"] logger and the calls made into Pillow and exifread. *)
Inductive event : Type :=
  | Log (lvl : level) (msg : string)
  | ImageOpen (path : string)
  | ExifTranspose
  | GetExif
  | Fit (size : Z * Z)
  | Thumbnail (size : Z * Z)
  | ProcessFile (path : string).

Inductive outcome (A : Type) : Type :=
  | Returned (a : A)
  | Raised (e : exn).
Arguments Returned {A} a.
Arguments Raised {A} e.

Definition Py (A : Type) : Type := list event * outcome A.

Definition ret {A} (a : A) : Py A := ([], Returned a).

Definition raise {A} (e : exn) : Py A := ([], Raised e).

Definition emit (ev : event) : Py unit := ([ev], Returned tt).

Definition bind {A B} (m : Py A) (f : A -> Py B) : Py B :=
  match m with
  | (t, Returned a) => let '(t', r) := f a in (t ++ t', r)
  | (t, Raised e) => (t, Raised e)
  end.

Declare Scope py_scope.
Delimit Scope py_scope with py.
Notation "x <- m ;; k" := (bind m (fun x => k))
  (at level 100, m at next level, right associativity) : py_scope.
Notation "m ;; k" := (bind m (fun _ => k))
  (at level 100, right associativity) : py_scope.
Local Open Scope py_scope.

Definition trace {A} (m : Py A) : list event := fst m.
Definition result {A} (m : Py A) : outcome A := snd m.

Definition logger_debug (msg : string) : Py unit := emit (Log DEBUG msg).
Definition logger_error (msg : string) : Py unit := emit (Log ERROR msg).

(** ** Python values held by a job dictionary *)

(** A job is the JSON object sent by the server, decoded into a [dict]:
    its values are strings, integers or [None]. *)
Inductive PyVal : Type :=
  | PyNone
  | PyInt (n : Z)
  | PyStr (s : string).

#[global] Instance PyVal_eq_dec : EqDecision PyVal.
Proof. solve_decision. Defined.

(** Truth value of an object, as tested by [if] and [and]. *)
Definition truthy (v : PyVal) : bool :=
  match v with
  | PyNone => false
  | PyInt n => negb (n =? 0)
  | PyStr s => negb (bool_decide (s = EmptyString))
  end.

(** [str(v)], as interpolated by an f-string. *)
Definition py_str (v : PyVal) : string :=
  match v with
  | PyNone => "None"
  | PyInt n => pretty n
  | PyStr s => s
  end.

(** [d[k]]: the value, or [KeyError]. *)
Definition getitem {V} (d : gmap string V) (k : string) : Py V :=
  match d !! k with
  | Some v => ret v
  | None => raise (KeyError k)
  end.

(** ** [fractions.Fraction] and [math.floor] *)

Definition Qz (n : Z) : Q := inject_Z n.

(** [Fraction(numerator, denominator)]: both arguments must be rational
    numbers, the denominator must not be zero, and the value is stored in
    lowest terms. *)
Definition Fraction (numerator denominator : PyVal) : Py Q :=
  match numerator, denominator with
  | PyInt n, PyInt d =>
      if d =? 0 then raise ZeroDivisionError
      else ret (Qred (Qz n / Qz d))
  | _, _ => raise TypeError
  end.

(** [a / f] for an object [a] and a [Fraction] [f]. *)
Definition truediv_Fraction (a : PyVal) (f : Q) : Py Q :=
  match a with
  | PyInt n =>
      if Qnum f =? 0 then raise ZeroDivisionError
      else ret (Qred (Qz n / f))
  | _ => raise TypeError
  end.

(** [math.floor] of a [Fraction] and of a job value. *)
Definition floor_Fraction (f : Q) : Z := Qfloor f.

Definition floor_val (a : PyVal) : Py Z :=
  match a with
  | PyInt n => ret n
  | _ => raise TypeError
  end.

(** [bool(f)] for a [Fraction]. *)
Definition Fraction_truthy (f : Q) : bool := negb (Qnum f =? 0).

(** ** Target size (lines 199-209 of [handle_image_conversion_job]) *)

(** The block that computes [ratio] and [size] from the job and from the
    size of the image at hand. [ratio] is [None] in the [else] branch. *)
Definition calc_size (job : gmap string PyVal) (image_size : Z * Z)
  : Py (option Q * (Z * Z)) :=
  n <- getitem job "aspect_ratio_numerator" ;;
  custom <- (if truthy n
             then d <- getitem job "aspect_ratio_denominator" ;; ret (truthy d)
             else ret false) ;;
  rh <- (if (custom : bool) then
           n <- getitem job "aspect_ratio_numerator" ;;
           d <- getitem job "aspect_ratio_denominator" ;;
           ratio <- Fraction n d ;;
           w <- getitem job "width" ;;
           q <- truediv_Fraction w ratio ;;
           ret (Some ratio, floor_Fraction q)
         else
           w <- getitem job "width" ;;
           f <- Fraction (PyInt (fst image_size)) (PyInt (snd image_size)) ;;
           q <- truediv_Fraction w f ;;
           ret (None, floor_Fraction q)) ;;
  w <- getitem job "width" ;;
  fw <- floor_val w ;;
  ret (fst rh, (fw, snd rh)).

(** ** Images, files and Pillow *)

Definition Pixel : Type := Z.

(** A decoded image: its [size] as [(width, height)], the pixel rows from
    top to bottom, and its EXIF directory (tag number to value). *)
Record Image : Type := mkImage {
  im_size : Z * Z;
  im_pixels : list (list Pixel);
  im_exif : gmap Z Z
}.

(** An EXIF tag as exifread returns it: [str(tag)] is [printable]. *)
Record IfdTag : Type := mkIfdTag {
  printable : string;
  field_type : Z
}.

(** The file at a path, as the two readers see it: [Image.open] decodes
    [f_image] (or fails), [exifread.process_file] yields [f_tags]. *)
Record File : Type := mkFile {
  f_path : string;
  f_image : option Image;
  f_tags : list (string * IfdTag)
}.

Definition Image_open (orig : File) : Py Image :=
  emit (ImageOpen (f_path orig)) ;;
  match f_image orig with
  | Some im => ret im
  | None => raise UnidentifiedImageError
  end.

(** *** [Image.transpose] *)

Inductive Transpose : Type :=
  | FLIP_LEFT_RIGHT
  | FLIP_TOP_BOTTOM
  | ROTATE_90
  | ROTATE_180
  | ROTATE_270
  | TRANSPOSE
  | TRANSVERSE.

(** The columns of a grid of the given width, each read from top to
    bottom. *)
Definition columns (w : nat) (rows : list (list Pixel)) : list (list Pixel) :=
  map (fun c => map (fun row => nth c row 0) rows) (seq 0 w).

Definition transpose_pixels (m : Transpose) (w : nat)
    (rows : list (list Pixel)) : list (list Pixel) :=
  match m with
  | FLIP_LEFT_RIGHT => map (@rev Pixel) rows
  | FLIP_TOP_BOTTOM => rev rows
  | ROTATE_180 => rev (map (@rev Pixel) rows)
  | TRANSPOSE => columns w rows
  | ROTATE_90 => rev (columns w rows)
  | ROTATE_270 => map (@rev Pixel) (columns w rows)
  | TRANSVERSE => rev (map (@rev Pixel) (columns w rows))
  end.

Definition swaps_axes (m : Transpose) : bool :=
  match m with
  | ROTATE_90 | ROTATE_270 | TRANSPOSE | TRANSVERSE => true
  | _ => false
  end.

Definition Image_transpose (m : Transpose) (im : Image) : Image :=
  let '(w, h) := im_size im in
  {| im_size := if swaps_axes m then (h, w) else (w, h);
     im_pixels := transpose_pixels m (Z.to_nat w) (im_pixels im);
     im_exif := im_exif im |}.

(** *** The orientation tag *)

Definition ORIENTATION : Z := 274.   (* 0x0112 *)

Definition orientation_method (orientation : Z) : option Transpose :=
  match orientation with
  | 2 => Some FLIP_LEFT_RIGHT
  | 3 => Some ROTATE_180
  | 4 => Some FLIP_TOP_BOTTOM
  | 5 => Some TRANSPOSE
  | 6 => Some ROTATE_270
  | 7 => Some TRANSVERSE
  | 8 => Some ROTATE_90
  | _ => None
  end.

(** *** [Image.resize], [ImageOps.fit], [Image.thumbnail]: resulting sizes

    Resampling is not modelled: these three give the size of the image that
    comes out, or the exception raised on the way. Pillow computes the
    quotients below in floating point; they are taken exactly here. *)

Definition Box : Type := Q * Q * Q * Q.

Definition full_box (self : Z * Z) : Box :=
  (0%Q, 0%Q, Qz (fst self), Qz (snd self)).

Definition Box_eqb (a b : Box) : bool :=
  let '(a0, a1, a2, a3) := a in
  let '(b0, b1, b2, b3) := b in
  Qeq_bool a0 b0 && Qeq_bool a1 b1 && Qeq_bool a2 b2 && Qeq_bool a3 b3.

Definition size_eqb (a b : Z * Z) : bool :=
  (fst a =? fst b) && (snd a =? snd b).

Definition Qlt_bool (a b : Q) : bool := negb (Qle_bool b a).

(** [self.resize(size, box=box, reducing_gap=...)] for an image of size
    [self] in a mode that is resampled (not ["1"] or ["P"]): a copy when
    nothing changes; with a reducing gap the reduction factors divide by
    the requested dimensions; the core then checks the size and the box. *)
Definition resize (self size : Z * Z) (box : Box) (reducing_gap : bool)
  : Py (Z * Z) :=
  if size_eqb self size && Box_eqb box (full_box self) then ret self
  else if reducing_gap && ((fst size =? 0) || (snd size =? 0))
  then raise ZeroDivisionError
  else
    let '(b0, b1, b2, b3) := box in
    if (fst size <? 1) || (snd size <? 1) then raise ValueError
    else if Qlt_bool b0 0 || Qlt_bool b1 0 then raise ValueError
    else if Qlt_bool (Qz (fst self)) b2 || Qlt_bool (Qz (snd self)) b3
    then raise ValueError
    else if Qlt_bool (b2 - b0) 0 || Qlt_bool (b3 - b1) 0 then raise ValueError
    else ret size.

(** [max(min(math.floor(number), math.ceil(number), key=key), 1)]:
    [min] keeps the first of two candidates with equal keys. *)
Definition round_aspect (number : Q) (key : Z -> Q) : Z :=
  let lo := Qfloor number in
  let hi := Qceiling number in
  Z.max (if Qle_bool (key lo) (key hi) then lo else hi) 1.

(** The inner [preserve_aspect_ratio] of [Image.thumbnail]: [None] when the
    image already fits the requested box. *)
Definition preserve_aspect_ratio (self provided_size : Z * Z)
  : Py (option (Z * Z)) :=
  let '(x, y) := provided_size in
  let '(width, height) := self in
  if (width <=? x) && (height <=? y) then ret None
  else if height =? 0 then raise ZeroDivisionError
  else
    let aspect := (Qz width / Qz height)%Q in
    if y =? 0 then raise ZeroDivisionError
    else if Qle_bool aspect (Qz x / Qz y)
    then ret (Some (round_aspect (Qz y * aspect)
                      (fun n => Qabs (aspect - Qz n / Qz y)), y))
    else if width =? 0 then raise ZeroDivisionError
    else ret (Some (x, round_aspect (Qz x / aspect)
                      (fun n => if n =? 0 then 0%Q
                                else Qabs (aspect - Qz x / Qz n)))).

(** [image.thumbnail(size)] on an in-memory image: the size of the image
    afterwards. The image is left alone when it fits the box, and is
    otherwise resized to the size [preserve_aspect_ratio] gives. *)
Definition thumbnail (self size : Z * Z) : Py (Z * Z) :=
  emit (Thumbnail size) ;;
  final <- preserve_aspect_ratio self size ;;
  match final with
  | None => ret self
  | Some final_size =>
      if size_eqb self final_size then ret self
      else resize self final_size (full_box self) true
  end.

(** *** [ImageOps] *)

Module ImageOps.

(** [ImageOps.exif_transpose(image)] returns a new image: transposed, with
    the orientation tag deleted, when the tag names one of the seven
    transforms; a copy otherwise. *)
Definition exif_transpose (image : Image) : Image :=
  let orientation := default 1 (im_exif image !! ORIENTATION) in
  match orientation_method orientation with
  | Some method =>
      let transposed := Image_transpose method image in
      {| im_size := im_size transposed;
         im_pixels := im_pixels transposed;
         im_exif := delete ORIENTATION (im_exif transposed) |}
  | None => image
  end.

(** [ImageOps.fit(image, size)] with the default [bleed=0.0] and
    [centering=(0.5, 0.5)]. *)
Definition fit (image_size size : Z * Z) : Py (Z * Z) :=
  emit (Fit size) ;;
  let live_size := (Qz (fst image_size), Qz (snd image_size)) in
  if snd image_size =? 0 then raise ZeroDivisionError else
  let live_size_ratio := (fst live_size / snd live_size)%Q in
  if snd size =? 0 then raise ZeroDivisionError else
  let output_ratio := (Qz (fst size) / Qz (snd size))%Q in
  crop_wh <- (if Qeq_bool live_size_ratio output_ratio
              then ret live_size
              else if Qle_bool output_ratio live_size_ratio
              then ret ((output_ratio * snd live_size)%Q, snd live_size)
              else if Qeq_bool output_ratio 0 then raise ZeroDivisionError
              else ret (fst live_size, (fst live_size / output_ratio)%Q)) ;;
  let '(crop_width, crop_height) := crop_wh in
  let crop_left := ((fst live_size - crop_width) * (1 # 2))%Q in
  let crop_top := ((snd live_size - crop_height) * (1 # 2))%Q in
  let crop := (crop_left, crop_top,
               (crop_left + crop_width)%Q, (crop_top + crop_height)%Q) in
  resize image_size size crop false.

End ImageOps.

(** ** The client *)

(** [SKIP_EXIF_TAGS], the module constant. *)
Definition SKIP_EXIF_TAGS : list string :=
  ["JPEGThumbnail"; "TIFFThumbnail"; "Filename"].

(** The attributes of a [BmaClient] that the job handlers can see. Token
    refresh and the settings request of [__init__] are network traffic and
    are left out. *)
Record BmaClient : Type := mkBmaClient {
  oauth_client_id : string;
  refresh_token : string;
  base_url : string;
  path : string;
  skip_exif_tags : list string
}.

(** [BmaClient.__init__]. *)
Definition BmaClient_init (oauth_client_id refresh_token path base_url : string)
  : BmaClient :=
  {| oauth_client_id := oauth_client_id;
     refresh_token := refresh_token;
     base_url := base_url;
     path := path;
     skip_exif_tags := SKIP_EXIF_TAGS |}.

(** *** [handle_image_conversion_job] *)

(** [str] of a size tuple and of the [ratio] variable. *)
Definition str_size (size : Z * Z) : string :=
  "(" +:+ pretty (fst size) +:+ ", " +:+ pretty (snd size) +:+ ")".

Definition str_ratio (ratio : option Q) : string :=
  match ratio with
  | None => "None"
  | Some f =>
      if (Zpos (Qden f) =? 1) then pretty (Qnum f)
      else pretty (Qnum f) +:+ "/" +:+ pretty (Zpos (Qden f))
  end.

Definition ratio_truthy (ratio : option Q) : bool :=
  match ratio with
  | None => false
  | Some f => Fraction_truthy f
  end.

(** The returned image is represented by its size. The debug records that
    only report elapsed wall-clock time are not part of the trace. *)
Definition handle_image_conversion_job (self : BmaClient)
    (job : gmap string PyVal) (orig : File) : Py ((Z * Z) * gmap Z Z) :=
  logger_debug ("Opening original image " +:+ f_path orig +:+ "...") ;;
  image <- Image_open orig ;;
  logger_debug "Rotating image (if needed)..." ;;
  emit ExifTranspose ;;
  let image := ImageOps.exif_transpose image in
  logger_debug "Getting exif metadata from image..." ;;
  emit GetExif ;;
  let exif := im_exif image in
  logger_debug "Calculating size and ratio..." ;;
  rs <- calc_size job (im_size image) ;;
  let '(ratio, size) := rs in
  logger_debug ("Desired image size is " +:+ str_size size +:+ ", AR "
                +:+ str_ratio ratio +:+ ", converting image...") ;;
  out <- (if ratio_truthy ratio
          then ImageOps.fit (im_size image) size
          else thumbnail (im_size image) size) ;;
  logger_debug "Done, returning result..." ;;
  ret (out, exif).

(** *** [get_exif] *)

(** [s.split(sep)] for a one-character separator: every occurrence
    separates, so pieces may be empty and there is always at least one. *)
Fixpoint split_on (sep : ascii) (s : string) : list string :=
  match s with
  | EmptyString => [EmptyString]
  | String c s' =>
      if Ascii.eqb c sep then EmptyString :: split_on sep s'
      else match split_on sep s' with
           | piece :: rest => String c piece :: rest
           | [] => [String c EmptyString]
           end
  end.

Definition str_len (s : string) : string := pretty (Z.of_nat (String.length s)).

(** One turn of the [for] loop over [tags.items()]. *)
Definition get_exif_body (grouped : gmap string (gmap string string))
    (tag : string) (value : IfdTag) : Py (gmap string (gmap string string)) :=
  if bool_decide (tag ∈ SKIP_EXIF_TAGS) then
    logger_debug ("Skipping exif tag " +:+ tag) ;;
    ret grouped
  else
    match split_on " "%char tag with
    | [] => raise ValueError
    | group :: key =>
        match last key with
        | None => raise IndexError
        | Some key =>
            logger_debug ("Group: " +:+ group +:+ " Key: " +:+ key
                          +:+ ", type " +:+ pretty (field_type value)
                          +:+ ", len " +:+ str_len (printable value)
                          +:+ ", value " +:+ printable value) ;;
            let grouped :=
              match grouped !! group with
              | None => <[group := ∅]> grouped
              | Some _ => grouped
              end in
            inner <- getitem grouped group ;;
            ret (<[group := <[key := printable value]> inner]> grouped)
        end
    end.

Fixpoint get_exif_loop (tags : list (string * IfdTag))
    (grouped : gmap string (gmap string string))
  : Py (gmap string (gmap string string)) :=
  match tags with
  | [] => ret grouped
  | (tag, value) :: rest =>
      grouped <- get_exif_body grouped tag value ;;
      get_exif_loop rest grouped
  end.

Definition get_exif (self : BmaClient) (fname : File)
  : Py (gmap string (gmap string string)) :=
  emit (ProcessFile (f_path fname)) ;;
  get_exif_loop (f_tags fname) ∅.

(** *** [handle_job] *)

(** What [handle_job] hands back: the pair from the conversion, the grouped
    tags, or [None]. *)
Inductive JobResult : Type :=
  | ConversionResult (image_size : Z * Z) (exif : gmap Z Z)
  | ExifResult (grouped : gmap string (gmap string string))
  | NoneResult.

Definition handle_job (self : BmaClient) (job : gmap string PyVal)
    (orig : File) : Py JobResult :=
  jt <- getitem job "job_type" ;;
  if bool_decide (jt = PyStr "ImageConversionJob") then
    r <- handle_image_conversion_job self job orig ;;
    ret (ConversionResult (fst r) (snd r))
  else
    jt <- getitem job "job_type" ;;
    if bool_decide (jt = PyStr "ImageExifExtractionJob") then
      g <- get_exif self orig ;;
      ret (ExifResult g)
    else
      jt <- getitem job "job_type" ;;
      logger_error ("Unsupported job type " +:+ py_str jt) ;;
      ret NoneResult.

(** ** Sample data *)

Definition sample_client : BmaClient :=
  BmaClient_init "client" "token" "/tmp" "https://media.bornhack.dk".

Definition conversion_job (width : Z) (n d : PyVal) : gmap string PyVal :=
  <["job_type" := PyStr "ImageConversionJob"]>
  (<["width" := PyInt width]>
  (<["aspect_ratio_numerator" := n]>
  (<["aspect_ratio_denominator" := d]> ∅))).

Definition blank_image (w h : Z) (exif : gmap Z Z) : Image :=
  {| im_size := (w, h);
     im_pixels := replicate (Z.to_nat h) (replicate (Z.to_nat w) 0);
     im_exif := exif |}.

Definition image_file (im : Image) : File :=
  {| f_path := "orig.jpg"; f_image := Some im; f_tags := [] |}.

Definition tag_file (tags : list (string * IfdTag)) : File :=
  {| f_path := "orig.jpg"; f_image := None; f_tags := tags |}.

(** A 4000 by 3000 photograph and a 100 by 100 square, without EXIF data. *)
Definition photo_file : File := image_file (blank_image 4000 3000 ∅).
Definition square_file : File := image_file (blank_image 100 100 ∅).

(** Width 1024 at 16:9; widths 800, 200 and 0 at the natural ratio; width 0
    at 16:9. *)
Definition widescreen_job : gmap string PyVal :=
  conversion_job 1024 (PyInt 16) (PyInt 9).
Definition natural_job (width : Z) : gmap string PyVal :=
  conversion_job width PyNone PyNone.
Definition zero_width_job : gmap string PyVal :=
  conversion_job 0 (PyInt 16) (PyInt 9).

(** The tag exifread builds for a single integer value. *)
Definition int_tag (n : Z) : IfdTag :=
  {| printable := pretty n; field_type := 4 |}.

(** ** Vocabulary of the properties *)

(** *** Conversion jobs *)

(** Everything [handle_image_conversion_job] does before it looks at the
    job: open the file, normalise the orientation, read the EXIF data. *)
Definition conversion_prelude (orig : File) : list event :=
  [ Log DEBUG ("Opening original image " +:+ f_path orig +:+ "...");
    ImageOpen (f_path orig);
    Log DEBUG "Rotating image (if needed)...";
    ExifTranspose;
    Log DEBUG "Getting exif metadata from image...";
    GetExif;
    Log DEBUG "Calculating size and ratio..." ].

Definition desired_record (ratio : option Q) (size : Z * Z) : event :=
  Log DEBUG ("Desired image size is " +:+ str_size size +:+ ", AR "
             +:+ str_ratio ratio +:+ ", converting image...").

Definition resize_step (image_size : Z * Z) (ratio : option Q)
    (size : Z * Z) : Py (Z * Z) :=
  if ratio_truthy ratio then ImageOps.fit image_size size
  else thumbnail image_size size.

(** The call into Pillow that a conversion makes once the size is known. *)
Definition resize_call (ratio : option Q) (size : Z * Z) : event :=
  if ratio_truthy ratio then Fit size else Thumbnail size.

(** The target size as the specification words it (GeometryResolver):
    the requested width, and the height [floor(W*d/n)] for a custom ratio
    [n/d] or [floor(W*h0/w0)] for the natural size [(w0, h0)]. *)
Definition GeometryResolver (natural : Z * Z) (W : Z)
    (aspect : option (Z * Z)) : Z * Z :=
  match aspect with
  | Some (n, d) => (W, (W * d) / n)
  | None => (W, (W * snd natural) / fst natural)
  end.

(** A job that carries the aspect ratio [aspect]: both fields hold positive
    integers, or both hold [None] and the image has a proper size. *)
Definition job_aspect (job : gmap string PyVal) (natural : Z * Z)
    (aspect : option (Z * Z)) : Prop :=
  match aspect with
  | Some (n, d) =>
      job !! "aspect_ratio_numerator" = Some (PyInt n)
      /\ job !! "aspect_ratio_denominator" = Some (PyInt d)
      /\ 0 < n /\ 0 < d
  | None =>
      job !! "aspect_ratio_numerator" = Some PyNone
      /\ job !! "aspect_ratio_denominator" = Some PyNone
      /\ 0 < fst natural /\ 0 < snd natural
  end.

(** The Pillow call each mode ends in. *)
Definition mode_call (aspect : option (Z * Z)) (size : Z * Z) : event :=
  match aspect with
  | Some _ => Fit size
  | None => Thumbnail size
  end.

(** A crop box that [resize] accepts for an image of size [self]. *)
Definition box_inside (self : Z * Z) (box : Box) : Prop :=
  let '(b0, b1, b2, b3) := box in
  (0 <= b0 /\ 0 <= b1 /\ b2 <= Qz (fst self) /\ b3 <= Qz (snd self)
   /\ b0 <= b2 /\ b1 <= b3)%Q.

Definition library_error (e : exn) : Prop :=
  e = ZeroDivisionError \/ e = ValueError.

(** *** Tag sets *)

(** The group and key a flat tag is filed under: the first piece and the
    last of the remaining pieces of [tag.split(" ")]; nothing when no piece
    remains. *)
Definition slot (tag : string) : option (string * string) :=
  match split_on " "%char tag with
  | group :: key => (fun k => (group, k)) <$> last key
  | [] => None
  end.

(** [grouped[g][k]], when both keys are present. *)
Definition entry (grouped : gmap string (gmap string string))
    (g k : string) : option string :=
  grouped !! g ≫= (.!! k).

(** The grouped dictionary after [grouped[g][k] = s], the group being
    created when it is missing. *)
Definition store (g k s : string) (grouped : gmap string (gmap string string))
  : gmap string (gmap string string) :=
  <[g := <[k := s]> (default ∅ (grouped !! g))]> grouped.

Definition skipped (tag : string) : bool :=
  bool_decide (tag ∈ SKIP_EXIF_TAGS).

(** The tags the loop can get through: each is skipped or has a slot. *)
Definition well_formed (tags : list (string * IfdTag)) : bool :=
  forallb (fun tv => skipped (fst tv) || bool_decide (is_Some (slot (fst tv))))
    tags.

(** The dictionary the loop builds on well-formed tags. *)
Fixpoint group_tags (tags : list (string * IfdTag))
    (grouped : gmap string (gmap string string))
  : gmap string (gmap string string) :=
  match tags with
  | [] => grouped
  | (tag, value) :: rest =>
      if skipped tag then group_tags rest grouped
      else match slot tag with
           | Some (g, k) =>
               group_tags rest (store g k (printable value) grouped)
           | None => grouped
           end
  end.

Fixpoint has_space (s : string) : bool :=
  match s with
  | EmptyString => false
  | String c s' => Ascii.eqb c " "%char || has_space s'
  end.

Definition with_tags (fname : File) (tags : list (string * IfdTag)) : File :=
  {| f_path := f_path fname; f_image := f_image fname; f_tags := tags |}.

(** The tag set without the key [k]. *)
Definition without (k : string) (tags : list (string * IfdTag))
  : list (string * IfdTag) :=
  filter (fun tv => fst tv <> k) tags.

(** No later key files into the slot [(g, t)]. *)
Definition slot_free (g t : string) (tags : list (string * IfdTag)) : Prop :=
  forall tag value,
    (tag, value) ∈ tags -> skipped tag = false -> slot tag <> Some (g, t).

(** The grouped dictionary as one flat map from [(group, tag)]. *)
Definition flat (grouped : gmap string (gmap string string))
  : gmap (string * string) string :=
  map_uncurry (M1 := gmap string) (M2 := gmap string)
    (M12 := gmap (string * string)) grouped.

(** The number of [(group, tag)] entries of a grouped dictionary. *)
Definition entries (grouped : gmap string (gmap string string)) : nat :=
  size (flat grouped).

(** The number of keys of a tag set that are not skipped. *)
Definition unskipped (tags : list (string * IfdTag)) : nat :=
  length (filter (fun tv => skipped (fst tv) = false) tags).

(** *** Tokens separated by whitespace *)

(** The characters Python counts as whitespace among the first 128. *)
Definition is_whitespace (c : ascii) : bool :=
  let n := nat_of_ascii c in
  ((9 <=? n)%nat && (n <=? 13)%nat) || ((28 <=? n)%nat && (n <=? 32)%nat).

Fixpoint whitespace_pieces (s : string) : list string :=
  match s with
  | EmptyString => [EmptyString]
  | String c s' =>
      if is_whitespace c then EmptyString :: whitespace_pieces s'
      else match whitespace_pieces s' with
           | piece :: rest => String c piece :: rest
           | [] => [String c EmptyString]
           end
  end.

(** The whitespace-separated tokens of a key, as the specification words
    the splitting: maximal runs of characters that are not whitespace. *)
Definition whitespace_tokens (s : string) : list string :=
  filter (fun piece => piece <> EmptyString) (whitespace_pieces s).

(** *** Sample tag sets *)

Definition tab : ascii := ascii_of_nat 9.

(** The key made of [Image], a tab, [A], a space and [B]. *)
Definition tabbed_key : string := "Image" +:+ String tab "A B".

Definition tabbed_tags : list (string * IfdTag) :=
  [ (tabbed_key, int_tag 266) ].

Definition bogus_tags : list (string * IfdTag) :=
  [ ("Image Make", {| printable := "Canon"; field_type := 2 |});
    ("Bogus", int_tag 1);
    ("Image Model", {| printable := "EOS"; field_type := 2 |}) ].

Definition thumbnail_tags : list (string * IfdTag) :=
  [ ("Image ExifOffset", int_tag 266);
    ("JPEGThumbnail", {| printable := "[255, 216, 255]"; field_type := 1 |}) ].

Definition colliding_tags : list (string * IfdTag) :=
  [ ("Image X", int_tag 1); ("Image A X", int_tag 2) ].

(** ** Vocabulary of the further properties *)

(** *** Jobs without a usable ratio *)

(** The test of line 201 fails: the numerator is falsy, or it is truthy and
    the denominator is falsy. *)
Definition ratio_unset (job : gmap string PyVal) : Prop :=
  exists n,
    job !! "aspect_ratio_numerator" = Some n
    /\ (truthy n = false
        \/ exists d,
             job !! "aspect_ratio_denominator" = Some d /\ truthy d = false).

(** Width 1024 with numerator 16 and the denominator left at [None]. *)
Definition half_ratio_job : gmap string PyVal :=
  conversion_job 1024 (PyInt 16) PyNone.

(** A job whose width arrived as a string. *)
Definition string_width_job : gmap string PyVal :=
  <["width" := PyStr "1024"]> widescreen_job.

(** A 4000 by 1000 panorama, and a 3 by 2 image stored on its side. *)
Definition panorama_file : File := image_file (blank_image 4000 1000 ∅).


(** *** Events by origin *)

(** The events that are calls into Pillow. *)
Definition pillow_event (ev : event) : Prop :=
  match ev with
  | ImageOpen _ | ExifTranspose | GetExif | Fit _ | Thumbnail _ => True
  | _ => False
  end.

(** The events that are debug records. *)
Definition debug_record (ev : event) : Prop := exists msg, ev = Log DEBUG msg.

(** A job dictionary that only names its type. *)
Definition typed_job (job_type : string) : gmap string PyVal :=
  {[ "job_type" := PyStr job_type ]}.

(** *** Slots of a tag set *)

(** The slots of the keys that are not skipped, in order. *)
Definition tag_slots (tags : list (string * IfdTag)) : list (string * string) :=
  omap (fun tv => if skipped (fst tv) then None else slot (fst tv)) tags.

(** A maker-note style tag set: two keys that differ in their middle piece
    only, and one skipped key. *)
Definition makernote_tags : list (string * IfdTag) :=
  [ ("MakerNote Tag 0x0001", int_tag 7);
    ("TIFFThumbnail", int_tag 0);
    ("EXIF ExposureTime", {| printable := "1/250"; field_type := 5 |}) ].

(** A key of three parts: group, middle and tag, separated by single
    spaces. The middle may itself contain spaces. *)
Definition composed_key (g m t : string) : string :=
  g +:+ " " +:+ m +:+ " " +:+ t.

(** The grouped dictionary with the single entry [grouped[g][t] = s]. *)
Definition single_entry (g t s : string) : gmap string (gmap string string) :=
  {[ g := {[ t := s ]} ]}.

(** Width 1024 at the ratio 16 : -9. *)
Definition negative_ratio_job : gmap string PyVal :=
  conversion_job 1024 (PyInt 16) (PyInt (-9)).

(** ** [upload_file] *)

(** *** [pathlib]: [path.name] and [path.suffix]

    Paths are POSIX paths. [path.name] is the last part of the path, the
    parts being the pieces between slashes that are neither empty nor a
    single dot; [path.suffix] is [name[i:]] for the last dot [i] of the
    name when [0 < i < len(name) - 1], and empty otherwise. *)

Definition Path_parts (p : string) : list string :=
  filter (fun x => x <> "" /\ x <> ".") (split_on "/"%char p).

Definition Path_name (p : string) : string :=
  default "" (last (Path_parts p)).

(** [name[i:]] for the last dot [i] of [name]; nothing without a dot. *)
Fixpoint from_last_dot (name : string) : option string :=
  match name with
  | EmptyString => None
  | String c rest =>
      match from_last_dot rest with
      | Some s => Some s
      | None => if Ascii.eqb c "."%char then Some name else None
      end
  end.

Definition Path_suffix (name : string) : string :=
  match name with
  | EmptyString => ""
  | String _ rest =>
      match from_last_dot rest with
      | Some s => if (1 <? String.length s)%nat then s else ""
      | None => ""
      end
  end.

(** [s[1:]]. *)
Definition drop_first (s : string) : string :=
  match s with
  | EmptyString => ""
  | String _ rest => rest
  end.

(** [str.lower()] on ASCII text: the letters [A] to [Z] are replaced. *)
Definition ascii_lower (c : ascii) : ascii :=
  let n := nat_of_ascii c in
  if (65 <=? n)%nat && (n <=? 90)%nat then ascii_of_nat (n + 32) else c.

Fixpoint lower (s : string) : string :=
  match s with
  | EmptyString => ""
  | String c rest => String (ascii_lower c) (lower rest)
  end.

(** *** The request and the method *)

(** [self.settings]: the [settings] object of the server's reply, as
    [get_server_settings] stores it. The innermost dictionaries keep their
    order, [values()] iterates over them. *)
Definition Settings : Type :=
  gmap string (gmap string (list (string * list string))).

(** What [upload_file] hands to [self.client.post]: the URL, the metadata
    that is serialised into the form, and the name the file is sent under. *)
Record UploadRequest : Type := mkUploadRequest {
  up_url : string;
  up_attribution : string;
  up_license : string;
  up_width : Z;
  up_height : Z;
  up_filename : string
}.

(** The [for ... else] over the lists of extensions: the first list that
    holds the lowered extension ends the loop, and running out of lists
    raises. *)
Fixpoint check_extension (extension : string) (values : list (list string))
  : Py unit :=
  match values with
  | [] => raise ValueError
  | extensions :: rest =>
      if bool_decide (lower extension ∈ extensions) then
        logger_debug ("Extension " +:+ extension +:+ " is supported...")
      else check_extension extension rest
  end.

Section Upload.

(** The HTTP client: what the POST gives back (or raises), and
    [r.json()] of a response. *)
Context {Response Json : Type}.
Variable client_post : UploadRequest -> Py Response.
Variable Response_json : Response -> Py Json.

Definition upload_file (self : BmaClient) (settings : Settings)
    (path : File) (attribution file_license : string) : Py Json :=
  let extension := drop_first (Path_suffix (Path_name (f_path path))) in
  filetypes <- getitem settings "filetypes" ;;
  images <- getitem filetypes "images" ;;
  check_extension extension (map snd images) ;;
  image <- Image_open path ;;
  emit ExifTranspose ;;
  let rotated := ImageOps.exif_transpose image in
  logger_debug ("Image has exif rotation info, using post-rotate size "
                +:+ str_size (im_size rotated)
                +:+ " instead of raw size " +:+ str_size (im_size image)) ;;
  let '(width, height) := im_size rotated in
  r <- client_post {| up_url := base_url self +:+ "/api/v1/json/files/upload/";
                      up_attribution := attribution;
                      up_license := file_license;
                      up_width := width;
                      up_height := height;
                      up_filename := Path_name (f_path path) |} ;;
  Response_json r.

End Upload.

(** *** Vocabulary of the upload properties *)

(** [self.settings["filetypes"]["images"]], when both keys are there. *)
Definition images_of (settings : Settings)
  : option (list (string * list string)) :=
  settings !! "filetypes" ≫= (.!! "images").

(** The settings that hold the given image types and nothing else. *)
Definition image_settings (images : list (string * list string)) : Settings :=
  {[ "filetypes" := {[ "images" := images ]} ]}.

(** [path.suffix[1:]]. *)
Definition extension_of (path : File) : string :=
  drop_first (Path_suffix (Path_name (f_path path))).

(** Some image type lists the extension [e], as written. *)
Definition listed (images : list (string * list string)) (e : string) : Prop :=
  Exists (fun extensions => e ∈ extensions) (map snd images).

(** The run that ends in [ValueError] before anything else has happened. *)
Definition refused {A} (run : Py A) : Prop := run = ([], Raised ValueError).

(** The image types with every extension that is not in lower case
    removed. *)
Definition lowercase_entries (images : list (string * list string))
  : list (string * list string) :=
  map (fun ke => (fst ke, filter (fun e => lower e = e) (snd ke))) images.

(** The size of an image as it is displayed: the stored size, with the axes
    exchanged when the orientation tag asks for a quarter turn. *)
Definition displayed_size (im : Image) : Z * Z :=
  match orientation_method (default 1 (im_exif im !! ORIENTATION)) with
  | Some method =>
      if swaps_axes method then (snd (im_size im), fst (im_size im))
      else im_size im
  | None => im_size im
  end.

(** The request for a file of the given size. *)
Definition upload_request (self : BmaClient) (path : File)
    (attribution file_license : string) (size : Z * Z) : UploadRequest :=
  {| up_url := base_url self +:+ "/api/v1/json/files/upload/";
     up_attribution := attribution;
     up_license := file_license;
     up_width := fst size;
     up_height := snd size;
     up_filename := Path_name (f_path path) |}.

(** The records and calls of an upload that reaches the POST. *)
Definition upload_prelude (path : File) (im : Image) : list event :=
  [ Log DEBUG ("Extension " +:+ extension_of path +:+ " is supported...");
    ImageOpen (f_path path);
    ExifTranspose;
    Log DEBUG ("Image has exif rotation info, using post-rotate size "
               +:+ str_size (displayed_size im)
               +:+ " instead of raw size " +:+ str_size (im_size im)) ].

Fixpoint has_dot (s : string) : bool :=
  match s with
  | EmptyString => false
  | String c rest => Ascii.eqb c "."%char || has_dot rest
  end.

(** A server that knows JPEG and PNG files, and one that spells the JPEG
    extension in capitals. *)
Definition jpeg_png_settings : Settings :=
  image_settings [ ("jpeg", ["jpg"; "jpe"; "jpeg"]); ("png", ["png"]) ].

Definition capitals_settings : Settings :=
  image_settings [ ("jpeg", ["JPG"]); ("png", ["png"]) ].

(** A client whose POST answers with the request it was given. *)
Definition echo_post (request : UploadRequest) : Py UploadRequest :=
  ret request.

Definition echo_json (response : UploadRequest) : Py UploadRequest :=
  ret response.

(** The file at a path, holding the given image. *)
Definition file_at (p : string) (image : option Image) : File :=
  {| f_path := p; f_image := image; f_tags := [] |}.

(** The size sent for an image stored as [w] by [h] with orientation [o]:
    the orientations 5 to 8 are the quarter turns. *)
Definition oriented_size (o w h : Z) : Z * Z :=
  if bool_decide (5 <= o <= 8) then (h, w) else (w, h).

(** A 4000 by 3000 photograph stored on its side, at a path with an
    extension in capitals, and the same path without a decodable image. *)
Definition sideways_photo : Image :=
  blank_image 4000 3000 {[ ORIENTATION := 6 ]}.

Definition capitals_path : string := "/srv/photos/IMG_0001.JPG".

(** * Properties *)

(** ** Running computations *)

Lemma bind_ret {A B} (a : A) (f : A -> Py B) : bind (ret a) f = f a.
Proof. unfold ret, bind. by destruct (f a). Qed.

Lemma bind_raise {A B} (e : exn) (f : A -> Py B) : bind (raise e) f = raise e.
Proof. done. Qed.

Lemma trace_bind {A B} (m : Py A) (f : A -> Py B) :
  trace (bind m f)
  = trace m ++ match result m with
               | Returned a => trace (f a)
               | Raised _ => []
               end.
Proof.
  destruct m as [t [a|e]]; unfold bind, trace, result; simpl.
  - by destruct (f a).
  - by rewrite app_nil_r.
Qed.

Lemma result_bind {A B} (m : Py A) (f : A -> Py B) :
  result (bind m f)
  = match result m with
    | Returned a => result (f a)
    | Raised e => Raised e
    end.
Proof.
  destruct m as [t [a|e]]; unfold bind, result; simpl; [|done].
  by destruct (f a).
Qed.

Lemma getitem_Some {V} (d : gmap string V) k v :
  d !! k = Some v -> getitem d k = ret v.
Proof. unfold getitem. by intros ->. Qed.

Lemma getitem_None {V} (d : gmap string V) k :
  d !! k = None -> getitem d k = raise (KeyError k).
Proof. unfold getitem. by intros ->. Qed.

Ltac py_run :=
  repeat (first
    [ rewrite bind_ret
    | rewrite bind_raise
    | match goal with
      | H : ?d !! ?k = Some _ |- context [getitem ?d ?k] =>
          rewrite (getitem_Some d k _ H)
      | H : ?d !! ?k = None |- context [getitem ?d ?k] =>
          rewrite (getitem_None d k H)
      end ]; cbn beta iota).

(** ** Rational arithmetic *)

Lemma Qfloor_Qred (q : Q) : Qfloor (Qred q) = Qfloor q.
Proof. apply Qfloor_comp, Qred_correct. Qed.

Lemma Qfloor_Qz_div (a b : Z) : 0 < b -> Qfloor (Qz a / Qz b) = a / b.
Proof.
  intros Hb. destruct b as [|p|p]; try lia.
  unfold Qz, inject_Z, Qdiv, Qinv, Qmult, Qfloor. simpl.
  f_equal; lia.
Qed.

Lemma Qz_nonzero (n : Z) : n <> 0 -> ~ (Qz n == 0)%Q.
Proof. unfold Qz, inject_Z, Qeq. simpl. lia. Qed.

Lemma Qz_pos (n : Z) : 0 < n -> (0 < Qz n)%Q.
Proof. unfold Qz, inject_Z, Qlt. simpl. lia. Qed.

Lemma Qz_nonneg (n : Z) : 0 <= n -> (0 <= Qz n)%Q.
Proof. unfold Qz, inject_Z, Qle. simpl. lia. Qed.

Lemma Qnum_zero (q : Q) : Qnum q = 0 <-> (q == 0)%Q.
Proof. unfold Qeq. simpl. lia. Qed.

Lemma Qnum_Qred_zero (q : Q) : Qnum (Qred q) = 0 <-> (q == 0)%Q.
Proof. rewrite Qnum_zero. by rewrite Qred_correct. Qed.

Lemma Qred_nonzero (q : Q) : ~ (q == 0)%Q -> ~ (Qred q == 0)%Q.
Proof. by rewrite Qred_correct. Qed.

Lemma Qz_div_nonzero (n d : Z) : n <> 0 -> d <> 0 -> ~ (Qz n / Qz d == 0)%Q.
Proof.
  intros Hn Hd H. apply (Qz_nonzero n Hn).
  assert (E : (Qz n == (Qz n / Qz d) * Qz d)%Q)
    by (field; by apply Qz_nonzero).
  rewrite E, H. ring.
Qed.

Lemma Qz_div_pos (a b : Z) : 0 < a -> 0 < b -> (0 < Qz a / Qz b)%Q.
Proof.
  intros Ha Hb. apply Qlt_shift_div_l; [by apply Qz_pos|].
  rewrite Qmult_0_l. by apply Qz_pos.
Qed.

Lemma Qz_div_mul (a b : Z) : 0 < b -> (Qz a / Qz b * Qz b == Qz a)%Q.
Proof. intros Hb. field. apply Qz_nonzero. lia. Qed.

(** Dividing an integer by a reduced fraction and flooring is integer
    floor division of the cross product. *)
Lemma floor_div_Fraction (W n d : Z) :
  0 < n -> d <> 0 ->
  Qfloor (Qred (Qz W / Qred (Qz n / Qz d))) = (W * d) / n.
Proof.
  intros Hn Hd. rewrite Qfloor_Qred.
  rewrite <- (Qfloor_Qz_div (W * d) n Hn).
  apply Qfloor_comp. rewrite Qred_correct.
  unfold Qz. rewrite inject_Z_mult.
  field. split; apply Qz_nonzero; lia.
Qed.

Lemma Qz_div_le (a b c d : Z) :
  0 < b -> 0 < d ->
  (Qz a / Qz b <= Qz c / Qz d)%Q <-> a * d <= c * b.
Proof.
  intros Hb Hd. destruct b as [|p|p]; try lia. destruct d as [|q|q]; try lia.
  unfold Qz, inject_Z, Qdiv, Qinv, Qmult, Qle. simpl. lia.
Qed.

Lemma Qz_mul_div_le (y w h bound : Z) :
  0 < h ->
  (Qz y * (Qz w / Qz h) <= Qz bound)%Q <-> y * w <= bound * h.
Proof.
  intros Hh. destruct h as [|p|p]; try lia.
  unfold Qz, inject_Z, Qdiv, Qinv, Qmult, Qle. simpl. lia.
Qed.

Lemma Qz_div_div_le (x w h bound : Z) :
  0 < w -> 0 < h ->
  (Qz x / (Qz w / Qz h) <= Qz bound)%Q <-> x * h <= bound * w.
Proof.
  intros Hw Hh. destruct h as [|p|p]; try lia. destruct w as [|q|q]; try lia.
  unfold Qz, inject_Z, Qdiv, Qinv, Qmult, Qle. simpl. lia.
Qed.

Lemma Qfloor_le_Qceiling (q : Q) : Qfloor q <= Qceiling q.
Proof. rewrite Zle_Qle. apply Qle_floor_ceiling. Qed.

Lemma Qceiling_le_Z (q : Q) (bound : Z) :
  (q <= Qz bound)%Q -> Qceiling q <= bound.
Proof.
  intros H. rewrite <- (Qceiling_Z bound). by apply Qceiling_resp_le.
Qed.

Lemma Qlt_bool_false (a b : Q) : (b <= a)%Q -> Qlt_bool a b = false.
Proof. intros H. unfold Qlt_bool. by apply Qle_bool_iff in H as ->. Qed.

(** ** The target size *)

Lemma truthy_PyInt (n : Z) : n <> 0 -> truthy (PyInt n) = true.
Proof. intros H. simpl. by apply negb_true_iff, Z.eqb_neq. Qed.

Lemma Fraction_ints (n d : Z) :
  d <> 0 -> Fraction (PyInt n) (PyInt d) = ret (Qred (Qz n / Qz d)).
Proof. intros H. simpl. by apply Z.eqb_neq in H as ->. Qed.

Lemma truediv_Fraction_int (W : Z) (f : Q) :
  ~ (f == 0)%Q -> truediv_Fraction (PyInt W) f = ret (Qred (Qz W / f)).
Proof.
  intros H. simpl. destruct (Qnum f =? 0) eqn:E; [|done].
  apply Z.eqb_eq, Qnum_zero in E. contradiction.
Qed.

Lemma calc_size_custom (job : gmap string PyVal) (image_size : Z * Z)
    (W n d : Z) :
  0 < n -> d <> 0 ->
  job !! "width" = Some (PyInt W) ->
  job !! "aspect_ratio_numerator" = Some (PyInt n) ->
  job !! "aspect_ratio_denominator" = Some (PyInt d) ->
  calc_size job image_size
  = ret (Some (Qred (Qz n / Qz d)), (W, (W * d) / n)).
Proof.
  intros Hn Hd HW HN HD. unfold calc_size. py_run.
  rewrite truthy_PyInt by lia. py_run.
  rewrite truthy_PyInt by done. py_run.
  rewrite Fraction_ints by done. py_run.
  rewrite truediv_Fraction_int
    by (apply Qred_nonzero, Qz_div_nonzero; lia).
  py_run. simpl. unfold floor_Fraction.
  rewrite floor_div_Fraction by done. done.
Qed.

Lemma calc_size_natural (job : gmap string PyVal) (W w0 h0 : Z) :
  0 < w0 -> h0 <> 0 ->
  job !! "width" = Some (PyInt W) ->
  job !! "aspect_ratio_numerator" = Some PyNone ->
  calc_size job (w0, h0) = ret (None, (W, (W * h0) / w0)).
Proof.
  intros Hw Hh HW HN. unfold calc_size. py_run. simpl truthy. py_run.
  cbn [fst snd]. rewrite Fraction_ints by done. py_run.
  rewrite truediv_Fraction_int
    by (apply Qred_nonzero, Qz_div_nonzero; lia).
  py_run. simpl. unfold floor_Fraction.
  rewrite floor_div_Fraction by done. done.
Qed.

Lemma calc_size_resolved (job : gmap string PyVal) (natural : Z * Z)
    (W : Z) (aspect : option (Z * Z)) :
  job !! "width" = Some (PyInt W) ->
  job_aspect job natural aspect ->
  exists ratio,
    calc_size job natural = ret (ratio, GeometryResolver natural W aspect)
    /\ resize_call ratio (GeometryResolver natural W aspect)
       = mode_call aspect (GeometryResolver natural W aspect).
Proof.
  intros HW Ha. destruct aspect as [[n d]|]; simpl in Ha.
  - destruct Ha as (HN & HD & Hn & Hd).
    exists (Some (Qred (Qz n / Qz d))). split.
    + apply calc_size_custom; auto; lia.
    + unfold resize_call, ratio_truthy, Fraction_truthy.
      destruct (Qnum (Qred (Qz n / Qz d)) =? 0) eqn:E; [|done].
      apply Z.eqb_eq, Qnum_Qred_zero in E.
      exfalso. revert E. apply Qz_div_nonzero; lia.
  - destruct Ha as (HN & HD & Hw & Hh). destruct natural as [w0 h0].
    exists None. split; [|done].
    apply calc_size_natural; auto. simpl in *; lia.
Qed.

Lemma natural_height_nonneg (W w0 h0 : Z) :
  0 <= W -> 0 < w0 -> 0 < h0 -> 0 <= (W * h0) / w0.
Proof. intros. apply Z.div_pos; nia. Qed.

(** ** The sizes Pillow returns *)

Lemma size_eqb_eq (a b : Z * Z) : size_eqb a b = true <-> a = b.
Proof.
  destruct a, b. unfold size_eqb. simpl.
  rewrite andb_true_iff, !Z.eqb_eq.
  split; [intros [-> ->]|intros [= -> ->]]; done.
Qed.

Lemma resize_Returned (self size : Z * Z) (box : Box) (rg : bool)
    (out : Z * Z) :
  result (resize self size box rg) = Returned out ->
  out = size /\ (size = self \/ (1 <= fst size /\ 1 <= snd size)).
Proof.
  unfold resize. destruct (size_eqb self size && _) eqn:E.
  - apply andb_true_iff in E as [E _]. apply size_eqb_eq in E as ->.
    intros [= <-]. auto.
  - destruct (rg && _); [done|]. destruct box as [[[b0 b1] b2] b3].
    destruct ((fst size <? 1) || (snd size <? 1)) eqn:E1; [done|].
    apply orb_false_iff in E1 as [?%Z.ltb_ge ?%Z.ltb_ge].
    repeat (destruct (_ || _); [done|]). intros [= <-]. auto.
Qed.

Lemma resize_ok (self size : Z * Z) (box : Box) (rg : bool) :
  1 <= fst size -> 1 <= snd size -> box_inside self box ->
  result (resize self size box rg) = Returned size.
Proof.
  intros Hw Hh Hbox. unfold resize.
  destruct (size_eqb self size && _) eqn:E.
  - apply andb_true_iff in E as [E _]. by apply size_eqb_eq in E as ->.
  - destruct box as [[[b0 b1] b2] b3].
    destruct Hbox as (H0 & H1 & H2 & H3 & H4 & H5).
    replace (fst size =? 0) with false by lia.
    replace (snd size =? 0) with false by lia.
    rewrite andb_false_r.
    replace (fst size <? 1) with false by lia.
    replace (snd size <? 1) with false by lia.
    rewrite !Qlt_bool_false by (done || lra). done.
Qed.

Lemma full_box_inside (self : Z * Z) :
  0 <= fst self -> 0 <= snd self -> box_inside self (full_box self).
Proof.
  intros Hw Hh. unfold box_inside, full_box.
  pose proof (Qz_nonneg _ Hw). pose proof (Qz_nonneg _ Hh).
  repeat split; lra.
Qed.

Lemma resize_improper (self size : Z * Z) (box : Box) (rg : bool) :
  0 < fst self -> 0 < snd self ->
  fst size <= 0 \/ snd size <= 0 ->
  exists e, result (resize self size box rg) = Raised e /\ library_error e.
Proof.
  intros Hw Hh Hsize. unfold resize.
  destruct (size_eqb self size) eqn:E.
  { apply size_eqb_eq in E as <-. lia. }
  cbn [andb]. destruct (rg && _).
  { exists ZeroDivisionError. split; [done|by left]. }
  destruct box as [[[b0 b1] b2] b3].
  assert ((fst size <? 1) || (snd size <? 1) = true) as ->.
  { apply orb_true_iff. destruct Hsize; [left|right]; lia. }
  exists ValueError. split; [done|by right].
Qed.

Lemma round_aspect_le (number : Q) (key : Z -> Q) (bound : Z) :
  1 <= bound -> (number <= Qz bound)%Q -> round_aspect number key <= bound.
Proof.
  intros H1 Hn. unfold round_aspect.
  pose proof (Qfloor_le_Qceiling number).
  pose proof (Qceiling_le_Z number bound Hn).
  destruct (Qle_bool _ _); lia.
Qed.

Lemma round_aspect_ge (number : Q) (key : Z -> Q) :
  1 <= round_aspect number key.
Proof. unfold round_aspect. lia. Qed.

Lemma trace_thumbnail (image_size size : Z * Z) :
  exists rest, trace (thumbnail image_size size) = Thumbnail size :: rest.
Proof. unfold thumbnail. rewrite trace_bind. simpl. eauto. Qed.

(** When [thumbnail] returns, the image it leaves is a proper image that
    exceeds neither the image it started from nor the requested box. *)
Lemma thumbnail_Returned (w0 h0 x y : Z) (out : Z * Z) :
  0 < w0 -> 0 < h0 -> 0 <= y ->
  result (thumbnail (w0, h0) (x, y)) = Returned out ->
  (1 <= fst out /\ 1 <= snd out)
  /\ (fst out <= w0 /\ snd out <= h0)
  /\ (fst out <= x /\ snd out <= y).
Proof.
  intros Hw Hh Hy H. unfold thumbnail in H.
  rewrite result_bind in H. cbn [emit result snd] in H.
  rewrite result_bind in H. unfold preserve_aspect_ratio in H.
  destruct ((w0 <=? x) && (h0 <=? y)) eqn:Efit.
  { apply andb_true_iff in Efit as [?%Z.leb_le ?%Z.leb_le].
    cbn in H. injection H as <-. simpl. lia. }
  assert (Hnofit : ~ (w0 <= x /\ h0 <= y)).
  { intros [? ?].
    apply andb_false_iff in Efit as [?%Z.leb_gt|?%Z.leb_gt]; lia. }
  replace (h0 =? 0) with false in H by lia.
  destruct (y =? 0) eqn:Ey; [done|]. apply Z.eqb_neq in Ey.
  destruct (Qle_bool _ _) eqn:EA.
  - apply Qle_bool_iff in EA.
    apply (proj1 (Qz_div_le w0 h0 x y ltac:(lia) ltac:(lia))) in EA.
    cbn [ret result snd] in H.
    set (a := round_aspect _ _) in H.
    assert (Ha1 : 1 <= a) by apply round_aspect_ge.
    assert (Hyh : y <= h0) by nia.
    assert (Hx1 : 1 <= x) by nia.
    assert (Haw : a <= w0).
    { apply round_aspect_le; [lia|]. apply Qz_mul_div_le; [lia|]. nia. }
    assert (Hax : a <= x).
    { apply round_aspect_le; [lia|]. apply Qz_mul_div_le; [lia|]. nia. }
    assert (Hout : out = (a, y)).
    { destruct (size_eqb (w0, h0) (a, y)) eqn:E.
      - apply size_eqb_eq in E. cbn in H. congruence.
      - by apply resize_Returned in H as [-> _]. }
    subst out. simpl. lia.
  - assert (EB : x * h0 < w0 * y).
    { apply Z.nle_gt. intros Hle.
      assert (Qle_bool (Qz w0 / Qz h0) (Qz x / Qz y) = true); [|congruence].
      apply Qle_bool_iff, Qz_div_le; lia. }
    replace (w0 =? 0) with false in H by lia.
    cbn [ret result snd] in H.
    set (b := round_aspect _ _) in H.
    assert (Hb1 : 1 <= b) by apply round_aspect_ge.
    assert (Hxw : x <= w0) by nia.
    assert (Hbh : b <= h0).
    { apply round_aspect_le; [lia|]. apply Qz_div_div_le; [lia..|]. nia. }
    assert (Hby : b <= y).
    { apply round_aspect_le; [lia|]. apply Qz_div_div_le; [lia..|]. nia. }
    assert (Hout : out = (x, b) /\ 1 <= x).
    { destruct (size_eqb (w0, h0) (x, b)) eqn:E.
      - apply size_eqb_eq in E. cbn in H. split; [congruence|].
        injection E as <- _. lia.
      - apply resize_Returned in H as [-> [Heq|[? ?]]]; [|done].
        injection Heq as <- _. split; [done|lia]. }
    destruct Hout as [-> Hx1]. simpl. lia.
Qed.

(** [thumbnail] returns whenever the image and the box are proper. *)
Lemma thumbnail_returns (w0 h0 x y : Z) :
  0 < w0 -> 0 < h0 -> 1 <= x -> 1 <= y ->
  exists out, result (thumbnail (w0, h0) (x, y)) = Returned out.
Proof.
  intros Hw Hh Hx Hy. unfold thumbnail.
  rewrite result_bind. cbn [emit result snd].
  rewrite result_bind. unfold preserve_aspect_ratio.
  destruct ((w0 <=? x) && (h0 <=? y)); [by eexists|].
  replace (h0 =? 0) with false by lia.
  replace (y =? 0) with false by lia.
  replace (w0 =? 0) with false by lia.
  destruct (Qle_bool _ _); cbn [ret result snd];
    (destruct (size_eqb _ _); [by eexists|]);
    eexists;
    (apply resize_ok;
     [ simpl; try lia; apply round_aspect_ge
     | simpl; try lia; apply round_aspect_ge
     | apply full_box_inside; simpl; lia ]).
Qed.

Lemma thumbnail_improper (w0 h0 x y : Z) :
  0 < w0 -> 0 < h0 -> x <= 0 ->
  (exists e, result (thumbnail (w0, h0) (x, y)) = Raised e /\ library_error e)
  /\ (y = 0 -> result (thumbnail (w0, h0) (x, y)) = Raised ZeroDivisionError).
Proof.
  intros Hw Hh Hx. unfold thumbnail.
  rewrite result_bind. cbn [emit result snd].
  rewrite result_bind. unfold preserve_aspect_ratio.
  replace (w0 <=? x) with false by lia. cbn [andb].
  replace (h0 =? 0) with false by lia.
  destruct (y =? 0) eqn:Ey.
  { split; [|done]. exists ZeroDivisionError. split; [done|by left]. }
  apply Z.eqb_neq in Ey. split; [|done].
  replace (w0 =? 0) with false by lia.
  destruct (Qle_bool _ _) eqn:EA; cbn [ret result snd].
  - assert (Hy : y < 0).
    { apply Z.nle_gt. intros Hy. apply Qle_bool_iff in EA.
      apply (proj1 (Qz_div_le w0 h0 x y ltac:(lia) ltac:(lia))) in EA. nia. }
    destruct (size_eqb _ _) eqn:E.
    { apply size_eqb_eq in E. injection E as _ ->. lia. }
    apply resize_improper; simpl; lia.
  - destruct (size_eqb _ _) eqn:E.
    { apply size_eqb_eq in E. injection E as -> _. lia. }
    apply resize_improper; simpl; lia.
Qed.

Lemma trace_fit (image_size size : Z * Z) :
  exists rest, trace (ImageOps.fit image_size size) = Fit size :: rest.
Proof. unfold ImageOps.fit. rewrite trace_bind. simpl. eauto. Qed.

Lemma fit_Returned (image_size size out : Z * Z) :
  result (ImageOps.fit image_size size) = Returned out -> out = size.
Proof.
  unfold ImageOps.fit. rewrite result_bind. cbn [emit result snd].
  destruct (snd image_size =? 0); [done|].
  destruct (snd size =? 0); [done|].
  rewrite result_bind.
  destruct (Qeq_bool _ _);
    [|destruct (Qle_bool _ _); [|destruct (Qeq_bool _ _); [done|]]];
    cbn [ret result snd]; intros H; by apply resize_Returned in H as [-> _].
Qed.

(** [fit] returns an image of exactly the requested size whenever the
    image and the requested size are proper: the crop box it computes lies
    inside the image. *)
Lemma fit_returns (w0 h0 W H : Z) :
  0 < w0 -> 0 < h0 -> 1 <= W -> 1 <= H ->
  result (ImageOps.fit (w0, h0) (W, H)) = Returned (W, H).
Proof.
  intros Hw Hh HW HH. unfold ImageOps.fit. rewrite result_bind.
  cbn [emit result fst snd].
  replace (h0 =? 0) with false by lia.
  replace (H =? 0) with false by lia.
  rewrite result_bind.
  pose proof (Qz_pos w0 Hw) as Pw. pose proof (Qz_pos h0 Hh) as Ph.
  pose proof (Qz_div_pos W H ltac:(lia) ltac:(lia)) as Pr.
  pose proof (Qz_div_mul w0 h0 Hh) as EL.
  set (r := (Qz W / Qz H)%Q) in *. set (L := (Qz w0 / Qz h0)%Q) in *.
  destruct (Qeq_bool L r) eqn:E1.
  { cbn [ret result snd]. apply resize_ok; [simpl; lia..|].
    unfold box_inside. cbn [fst snd]. repeat split; lra. }
  destruct (Qle_bool r L) eqn:E2.
  { apply Qle_bool_iff in E2. cbn [ret result snd].
    apply resize_ok; [simpl; lia..|].
    assert (Hc : (r * Qz h0 <= Qz w0)%Q).
    { rewrite <- EL. apply Qmult_le_compat_r; [done|]. by apply Qlt_le_weak. }
    assert (Hc0 : (0 <= r * Qz h0)%Q)
      by (apply Qmult_le_0_compat; by apply Qlt_le_weak).
    set (cw := (r * Qz h0)%Q) in *.
    unfold box_inside. cbn [fst snd]. repeat split; lra. }
  assert (E3 : (L < r)%Q).
  { apply Qnot_le_lt. intros Hle. apply Qle_bool_iff in Hle. congruence. }
  assert (E4 : Qeq_bool r 0 = false).
  { destruct (Qeq_bool r 0) eqn:E; [|done]. apply Qeq_bool_eq in E. lra. }
  rewrite E4. cbn [ret result snd].
  apply resize_ok; [simpl; lia..|].
  assert (Hc : (Qz w0 / r <= Qz h0)%Q).
  { apply Qle_shift_div_r; [done|]. rewrite <- EL. rewrite (Qmult_comm (Qz h0)).
    apply Qmult_le_compat_r; by apply Qlt_le_weak. }
  assert (Hc0 : (0 <= Qz w0 / r)%Q).
  { apply Qle_shift_div_l; [done|]. rewrite Qmult_0_l. by apply Qlt_le_weak. }
  set (ch := (Qz w0 / r)%Q) in *.
  unfold box_inside. cbn [fst snd]. repeat split; lra.
Qed.

Lemma fit_improper (w0 h0 W H : Z) :
  0 < w0 -> 0 < h0 -> W <= 0 ->
  (exists e,
     result (ImageOps.fit (w0, h0) (W, H)) = Raised e /\ library_error e)
  /\ (H = 0 ->
      result (ImageOps.fit (w0, h0) (W, H)) = Raised ZeroDivisionError).
Proof.
  intros Hw Hh HW. unfold ImageOps.fit. rewrite result_bind.
  cbn [emit result fst snd].
  replace (h0 =? 0) with false by lia.
  destruct (H =? 0) eqn:EH.
  { split; [|done]. exists ZeroDivisionError. split; [done|by left]. }
  apply Z.eqb_neq in EH. split; [|done].
  rewrite result_bind.
  destruct (Qeq_bool _ _);
    [|destruct (Qle_bool _ _); [|destruct (Qeq_bool _ _)]];
    cbn [ret raise result snd];
    try (apply resize_improper; simpl; lia).
  exists ZeroDivisionError. split; [done|by left].
Qed.

(** ** Running a conversion job *)

Lemma resize_step_mode (natural : Z * Z) (ratio : option Q)
    (aspect : option (Z * Z)) (size : Z * Z) :
  resize_call ratio size = mode_call aspect size ->
  resize_step natural ratio size
  = match aspect with
    | Some _ => ImageOps.fit natural size
    | None => thumbnail natural size
    end.
Proof.
  unfold resize_call, resize_step.
  by destruct (ratio_truthy ratio), aspect.
Qed.

Section ConversionJob.

Context (self : BmaClient) (job : gmap string PyVal) (orig : File)
  (im : Image).
Hypothesis opened : f_image orig = Some im.

Local Abbreviation natural := (im_size (ImageOps.exif_transpose im)).

Lemma conversion_run :
  handle_image_conversion_job self job orig
  = bind (conversion_prelude orig, Returned tt) (fun _ =>
      rs <- calc_size job natural ;;
      emit (desired_record (fst rs) (snd rs)) ;;
      out <- resize_step natural (fst rs) (snd rs) ;;
      logger_debug "Done, returning result..." ;;
      ret (out, im_exif (ImageOps.exif_transpose im))).
Proof.
  unfold handle_image_conversion_job, Image_open. rewrite opened.
  cbv beta iota delta [bind emit ret logger_debug].
  destruct (calc_size job natural) as [t [[ratio size]|e]]; [|reflexivity].
  unfold resize_step. cbn [fst snd].
  by destruct (if ratio_truthy ratio then _ else _) as [t2 [out|e2]].
Qed.

Lemma conversion_trace (ratio : option Q) (size : Z * Z) :
  calc_size job natural = ret (ratio, size) ->
  exists rest,
    trace (handle_image_conversion_job self job orig)
    = conversion_prelude orig
      ++ desired_record ratio size :: resize_call ratio size :: rest.
Proof.
  intros Hcalc. rewrite conversion_run, Hcalc.
  rewrite trace_bind. cbn [trace result fst snd].
  rewrite bind_ret. cbn [fst snd]. rewrite trace_bind.
  cbn [trace result emit fst snd].
  rewrite trace_bind. unfold resize_step, resize_call.
  destruct (ratio_truthy ratio).
  - destruct (trace_fit natural size) as [r ->]. eexists. reflexivity.
  - destruct (trace_thumbnail natural size) as [r ->]. eexists. reflexivity.
Qed.

Lemma conversion_result (ratio : option Q) (size : Z * Z) :
  calc_size job natural = ret (ratio, size) ->
  result (handle_image_conversion_job self job orig)
  = match result (resize_step natural ratio size) with
    | Returned out => Returned (out, im_exif (ImageOps.exif_transpose im))
    | Raised e => Raised e
    end.
Proof.
  intros Hcalc. rewrite conversion_run, Hcalc.
  rewrite result_bind. cbn [result snd]. rewrite bind_ret.
  rewrite result_bind. cbn [emit result fst snd]. rewrite result_bind.
  by destruct (result (resize_step _ _ _)).
Qed.

(** The outcome of a job in terms of the Pillow call of its mode. *)
Lemma conversion_outcome (W : Z) (aspect : option (Z * Z)) :
  job !! "width" = Some (PyInt W) ->
  job_aspect job natural aspect ->
  result (handle_image_conversion_job self job orig)
  = match result (let size := GeometryResolver natural W aspect in
                  match aspect with
                  | Some _ => ImageOps.fit natural size
                  | None => thumbnail natural size
                  end) with
    | Returned out => Returned (out, im_exif (ImageOps.exif_transpose im))
    | Raised e => Raised e
    end.
Proof.
  intros HW Ha.
  destruct (calc_size_resolved job _ W aspect HW Ha) as (ratio & Hc & Hcall).
  rewrite (conversion_result ratio _ Hc).
  by rewrite (resize_step_mode _ ratio aspect _ Hcall).
Qed.

End ConversionJob.

(** ** Conversion jobs: size, width, bounds, failure *)

(** C1. For every conversion job with requested width [W > 0], the size
    that [handle_image_conversion_job] resolves and hands to Pillow is
    [(W, floor(W*d/n))] when the job carries a custom ratio with [n > 0]
    and [d > 0], and [(W, floor(W*h0/w0))] when it carries none, where
    [(w0, h0)] is the size of the orientation-normalised image; at
    [W = 1024], [n = 16], [d = 9] it is [(1024, 576)]. *)
Theorem target_size_resolved (self : BmaClient) (job : gmap string PyVal)
    (orig : File) (im : Image) (W : Z) (aspect : option (Z * Z)) :
  0 < W ->
  f_image orig = Some im ->
  job !! "width" = Some (PyInt W) ->
  job_aspect job (im_size (ImageOps.exif_transpose im)) aspect ->
  let natural := im_size (ImageOps.exif_transpose im) in
  let size := GeometryResolver natural W aspect in
  (exists ratio, calc_size job natural = ret (ratio, size))
  /\ mode_call aspect size ∈ trace (handle_image_conversion_job self job orig)
  /\ (exists ratio,
        calc_size widescreen_job natural = ret (ratio, (1024, 576))).
Proof.
  intros HWpos Him HW Ha natural size.
  destruct (calc_size_resolved job _ W aspect HW Ha) as (ratio & Hc & Hcall).
  fold natural size in Hc, Hcall. split; [eauto|]. split.
  - destruct (conversion_trace self job orig im Him ratio size Hc)
      as [rest ->].
    rewrite Hcall. apply elem_of_app. right.
    apply list_elem_of_further, list_elem_of_here.
  - eexists. by apply (calc_size_custom widescreen_job natural 1024 16 9).
Qed.

(** The other worked example of the size rule: a 4000 by 3000 image at
    width 800 and its natural ratio comes out 800 by 600. *)
Example natural_ratio_800 :
  result (handle_image_conversion_job sample_client (natural_job 800)
            photo_file)
  = Returned ((800, 600), ∅).
Proof. vm_compute. reflexivity. Qed.

Lemma target_size_resolved_witness :
  Fit (1024, 576)
  ∈ trace (handle_image_conversion_job sample_client widescreen_job
             photo_file).
Proof.
  apply (target_size_resolved sample_client widescreen_job photo_file
           (blank_image 4000 3000 ∅) 1024 (Some (16, 9)));
    [lia | reflexivity | reflexivity | ].
  simpl. repeat split; lia.
Defined.

(** C2 (as stated). At requested width 200 in natural-ratio mode on a
    100 by 100 source the job returns the source size: the output width is
    100, not the requested 200. *)
Lemma output_width_differs_from_requested :
  result (handle_image_conversion_job sample_client (natural_job 200)
            square_file)
  = Returned ((100, 100), ∅)
  /\ fst (100, 100) <> 200.
Proof. split; [vm_compute; reflexivity | simpl; lia]. Qed.

(** C2 (amended). In custom-ratio (crop-fit) mode the image a job returns
    has exactly the requested width [W] (and the resolved height), and the
    job does return whenever the source is a proper image and the resolved
    height is at least 1; in natural-ratio (thumbnail) mode the width of the
    returned image never exceeds [W]. *)
Theorem output_width_requested_or_below (self : BmaClient)
    (job : gmap string PyVal) (orig : File) (im : Image) (W : Z)
    (aspect : option (Z * Z)) :
  0 < W ->
  f_image orig = Some im ->
  job !! "width" = Some (PyInt W) ->
  job_aspect job (im_size (ImageOps.exif_transpose im)) aspect ->
  let natural := im_size (ImageOps.exif_transpose im) in
  let size := GeometryResolver natural W aspect in
  (forall out exif,
     result (handle_image_conversion_job self job orig)
     = Returned (out, exif) ->
     match aspect with
     | Some _ => out = size /\ fst out = W
     | None => fst out <= W
     end)
  /\ (is_Some aspect -> 0 < fst natural -> 0 < snd natural -> 1 <= snd size ->
      exists exif,
        result (handle_image_conversion_job self job orig)
        = Returned (size, exif)).
Proof.
  intros HWpos Him HW Ha natural size.
  rewrite (conversion_outcome self job orig im Him W aspect HW Ha).
  fold natural size. split.
  - intros out exif H. destruct aspect as [[n d]|].
    + destruct (result (ImageOps.fit natural size)) as [o|e] eqn:E; [|done].
      injection H as -> _. apply fit_Returned in E as ->. done.
    + destruct (result (thumbnail natural size)) as [o|e] eqn:E; [|done].
      injection H as -> _. destruct Ha as (_ & _ & Hw & Hh).
      fold natural in Hw, Hh. destruct natural as [w0 h0]. simpl in *.
      apply thumbnail_Returned in E; [simpl in E; lia|lia..|].
      apply natural_height_nonneg; lia.
  - intros [[n d] ->] Hw Hh HH. destruct natural as [w0 h0].
    unfold size in *. simpl in *. rewrite fit_returns by lia. eauto.
Qed.

Lemma output_width_requested_or_below_witness :
  (forall out exif,
     result (handle_image_conversion_job sample_client widescreen_job
               photo_file)
     = Returned (out, exif) ->
     out = (1024, 576) /\ fst out = 1024)
  /\ (exists exif,
        result (handle_image_conversion_job sample_client widescreen_job
                  photo_file)
        = Returned ((1024, 576), exif)).
Proof.
  destruct (output_width_requested_or_below sample_client widescreen_job
              photo_file
              (blank_image 4000 3000 ∅) 1024 (Some (16, 9))) as [H1 H2];
    [lia | reflexivity | reflexivity | simpl; repeat split; lia | ].
  split; [exact H1 | apply H2; [by eexists | by vm_compute ..]].
Defined.

(** C8. In natural-ratio (thumbnail) mode neither dimension of the image a
    job returns exceeds the corresponding dimension of the
    orientation-normalised source, and the job does return whenever the
    resolved height is at least 1. *)
Theorem thumbnail_within_source (self : BmaClient) (job : gmap string PyVal)
    (orig : File) (im : Image) (W : Z) :
  0 < W ->
  f_image orig = Some im ->
  job !! "width" = Some (PyInt W) ->
  job_aspect job (im_size (ImageOps.exif_transpose im)) None ->
  let natural := im_size (ImageOps.exif_transpose im) in
  let size := GeometryResolver natural W None in
  (forall out exif,
     result (handle_image_conversion_job self job orig)
     = Returned (out, exif) ->
     fst out <= fst natural /\ snd out <= snd natural)
  /\ (1 <= snd size ->
      exists out exif,
        result (handle_image_conversion_job self job orig)
        = Returned (out, exif)).
Proof.
  intros HWpos Him HW Ha natural size.
  rewrite (conversion_outcome self job orig im Him W None HW Ha).
  fold natural size. destruct Ha as (_ & _ & Hw & Hh). fold natural in Hw, Hh.
  unfold size. clear size. destruct natural as [w0 h0]. simpl in *. split.
  - intros out exif H.
    destruct (result (thumbnail _ _)) as [o|e] eqn:E; [|done].
    injection H as -> _.
    apply thumbnail_Returned in E; [lia|lia..|].
    apply natural_height_nonneg; lia.
  - intros HH.
    destruct (thumbnail_returns w0 h0 W (W * h0 / w0)) as [out ->]; try lia.
    eauto.
Qed.

Lemma thumbnail_within_source_witness :
  (forall out exif,
     result (handle_image_conversion_job sample_client (natural_job 800)
               photo_file)
     = Returned (out, exif) ->
     fst out <= 4000 /\ snd out <= 3000)
  /\ (exists out exif,
        result (handle_image_conversion_job sample_client (natural_job 800)
                  photo_file)
        = Returned (out, exif)).
Proof.
  destruct (thumbnail_within_source sample_client (natural_job 800)
              photo_file
              (blank_image 4000 3000 ∅) 800) as [H1 H2];
    [lia | reflexivity | reflexivity | simpl; repeat split; lia | ].
  split; [exact H1 | apply H2; by vm_compute].
Defined.

(** C3 (as stated). With requested width 0 and aspect ratio 16:9 the job
    is not turned away before decoding: the source is opened and
    orientation-normalised and [ImageOps.fit] is called with [(0, 0)], which
    is where a [ZeroDivisionError] ends the job. *)
Lemma zero_width_fails_after_decode :
  result (handle_image_conversion_job sample_client zero_width_job
            square_file)
  = Raised ZeroDivisionError
  /\ ImageOpen "orig.jpg"
     ∈ trace (handle_image_conversion_job sample_client zero_width_job
                square_file)
  /\ ExifTranspose
     ∈ trace (handle_image_conversion_job sample_client zero_width_job
                square_file)
  /\ Fit (0, 0)
     ∈ trace (handle_image_conversion_job sample_client zero_width_job
                square_file).
Proof.
  assert (E : handle_image_conversion_job sample_client zero_width_job
                square_file = ([
    Log DEBUG "Opening original image orig.jpg...";
    ImageOpen "orig.jpg";
    Log DEBUG "Rotating image (if needed)...";
    ExifTranspose;
    Log DEBUG "Getting exif metadata from image...";
    GetExif;
    Log DEBUG "Calculating size and ratio...";
    Log DEBUG "Desired image size is (0, 0), AR 16/9, converting image...";
    Fit (0, 0)], Raised ZeroDivisionError)) by (vm_compute; reflexivity).
  rewrite E. cbn [trace result fst snd]. repeat split; set_solver.
Qed.

(** C3 (amended). A conversion job whose requested width is [W <= 0]
    yields no output, but it is not checked up front: the source image is
    opened and orientation-normalised first, the size is resolved and
    handed to Pillow, and the job ends in the exception Pillow raises
    there, a [ZeroDivisionError] or a [ValueError] (a [ZeroDivisionError]
    when [W = 0]). *)
Theorem nonpositive_width_fails_in_resize (self : BmaClient)
    (job : gmap string PyVal) (orig : File) (im : Image) (W : Z)
    (aspect : option (Z * Z)) :
  W <= 0 ->
  f_image orig = Some im ->
  0 < fst (im_size (ImageOps.exif_transpose im)) ->
  0 < snd (im_size (ImageOps.exif_transpose im)) ->
  job !! "width" = Some (PyInt W) ->
  job_aspect job (im_size (ImageOps.exif_transpose im)) aspect ->
  let natural := im_size (ImageOps.exif_transpose im) in
  let size := GeometryResolver natural W aspect in
  (exists ratio rest,
     trace (handle_image_conversion_job self job orig)
     = conversion_prelude orig
       ++ desired_record ratio size :: mode_call aspect size :: rest)
  /\ (exists e,
        result (handle_image_conversion_job self job orig) = Raised e
        /\ library_error e)
  /\ (W = 0 ->
      result (handle_image_conversion_job self job orig)
      = Raised ZeroDivisionError).
Proof.
  intros HWle Him Hw Hh HW Ha natural size. split.
  { destruct (calc_size_resolved job _ W aspect HW Ha) as (ratio & Hc & Hcall).
    destruct (conversion_trace self job orig im Him ratio _ Hc) as [rest E].
    exists ratio, rest. rewrite E. unfold size, natural. by rewrite Hcall. }
  rewrite (conversion_outcome self job orig im Him W aspect HW Ha).
  unfold size, natural in *. clear size natural.
  destruct (im_size (ImageOps.exif_transpose im)) as [w0 h0]. simpl in Hw, Hh.
  destruct aspect as [[n d]|]; cbn zeta; cbn [GeometryResolver fst snd].
  - destruct (fit_improper w0 h0 W (W * d / n) Hw Hh HWle)
      as [(e & -> & He) H0].
    split; [eauto|]. intros ->.
    assert (E : @Raised (Z * Z) e = Raised ZeroDivisionError)
      by (apply H0; by rewrite Z.mul_0_l).
    by injection E as ->.
  - destruct (thumbnail_improper w0 h0 W (W * h0 / w0) Hw Hh HWle)
      as [(e & -> & He) H0].
    split; [eauto|]. intros ->.
    assert (E : @Raised (Z * Z) e = Raised ZeroDivisionError)
      by (apply H0; by rewrite Z.mul_0_l).
    by injection E as ->.
Qed.

Lemma nonpositive_width_fails_in_resize_witness :
  result (handle_image_conversion_job sample_client (natural_job 0)
            square_file)
  = Raised ZeroDivisionError.
Proof.
  refine (proj2 (proj2 (nonpositive_width_fails_in_resize sample_client
            (natural_job 0) square_file
            (blank_image 100 100 ∅) 0 None _ _ _ _ _ _)) _);
    try reflexivity; by vm_compute.
Defined.

(** ** Orientation *)

(** A 3 by 2 image tagged "rotate 90 degrees clockwise to display": the
    rows become the columns read bottom-up, the size is swapped and the tag
    is gone. *)
Example exif_transpose_rotates :
  ImageOps.exif_transpose
    {| im_size := (3, 2);
       im_pixels := [[1; 2; 3]; [4; 5; 6]];
       im_exif := {[ ORIENTATION := 6 ]} |}
  = {| im_size := (2, 3);
       im_pixels := [[4; 1]; [5; 2]; [6; 3]];
       im_exif := ∅ |}.
Proof. vm_compute. reflexivity. Qed.

Lemma exif_transpose_upright (x : Image) :
  orientation_method (default 1 (im_exif x !! ORIENTATION)) = None ->
  ImageOps.exif_transpose x = x.
Proof. unfold ImageOps.exif_transpose. by intros ->. Qed.

Lemma exif_transpose_tag (x : Image) :
  orientation_method
    (default 1 (im_exif (ImageOps.exif_transpose x) !! ORIENTATION)) = None.
Proof.
  unfold ImageOps.exif_transpose.
  destruct (orientation_method (default 1 (im_exif x !! ORIENTATION)))
    as [method|] eqn:E; [|done].
  cbn [im_exif]. by rewrite lookup_delete_eq.
Qed.

(** C7. Orientation normalisation is idempotent: for every image [x],
    normalising the normalised image gives the normalised image again,
    because after normalising the orientation tag selects no transform
    (it is deleted, or it was normal or absent to begin with) and an image
    whose tag selects no transform is returned unchanged. *)
Theorem exif_transpose_idempotent (x : Image) :
  ImageOps.exif_transpose (ImageOps.exif_transpose x)
  = ImageOps.exif_transpose x
  /\ orientation_method
       (default 1 (im_exif (ImageOps.exif_transpose x) !! ORIENTATION)) = None.
Proof.
  split; [|apply exif_transpose_tag].
  apply exif_transpose_upright, exif_transpose_tag.
Qed.

(** ** Dispatch *)

(** C9. For every job whose [job_type] is neither of the two known kinds,
    [handle_job] raises nothing: it logs one error record naming the type,
    touches neither the image nor the tags, and returns [None] to its
    caller, so there is no converted image and no metadata mapping. *)
Theorem unsupported_job_type_returns_None (self : BmaClient)
    (job : gmap string PyVal) (orig : File) (jt : PyVal) :
  job !! "job_type" = Some jt ->
  jt <> PyStr "ImageConversionJob" ->
  jt <> PyStr "ImageExifExtractionJob" ->
  handle_job self job orig
  = ([Log ERROR ("Unsupported job type " +:+ py_str jt)], Returned NoneResult).
Proof.
  intros Hjt H1 H2. unfold handle_job. py_run.
  rewrite bool_decide_eq_false_2 by done. py_run.
  rewrite bool_decide_eq_false_2 by done. py_run.
  reflexivity.
Qed.

Lemma unsupported_job_type_returns_None_witness :
  handle_job sample_client (<["job_type" := PyStr "VideoJob"]> ∅)
    (tag_file [])
  = ([Log ERROR "Unsupported job type VideoJob"], Returned NoneResult).
Proof.
  apply (unsupported_job_type_returns_None sample_client
           (<["job_type" := PyStr "VideoJob"]> ∅) (tag_file [])
           (PyStr "VideoJob")); [reflexivity | done | done].
Defined.

(** ** Grouping EXIF tags *)

Lemma split_on_nonempty (sep : ascii) (s : string) : split_on sep s <> [].
Proof.
  destruct s as [|c s]; simpl; [done|].
  destruct (Ascii.eqb c sep); [done|]. by destruct (split_on sep s).
Qed.

Lemma get_exif_body_skipped (grouped : gmap string (gmap string string))
    (tag : string) (value : IfdTag) :
  skipped tag = true ->
  get_exif_body grouped tag value
  = ([Log DEBUG ("Skipping exif tag " +:+ tag)], Returned grouped).
Proof. unfold get_exif_body, skipped. by intros ->. Qed.

Lemma get_exif_body_malformed (grouped : gmap string (gmap string string))
    (tag : string) (value : IfdTag) :
  skipped tag = false -> slot tag = None ->
  get_exif_body grouped tag value = raise IndexError.
Proof.
  unfold get_exif_body, skipped, slot. intros ->.
  pose proof (split_on_nonempty " "%char tag).
  destruct (split_on " "%char tag) as [|group key]; [done|].
  by destruct (last key).
Qed.

Lemma get_exif_body_store (grouped : gmap string (gmap string string))
    (tag : string) (value : IfdTag) (g k : string) :
  skipped tag = false -> slot tag = Some (g, k) ->
  result (get_exif_body grouped tag value)
  = Returned (store g k (printable value) grouped).
Proof.
  unfold get_exif_body, skipped, slot. intros ->.
  destruct (split_on " "%char tag) as [|group key]; [done|].
  destruct (last key) as [key'|]; [|done]. intros [= -> ->].
  rewrite result_bind. cbn [logger_debug emit result snd].
  unfold store. destruct (grouped !! g) as [inner|] eqn:E.
  - rewrite (getitem_Some _ _ _ E). by rewrite bind_ret.
  - rewrite (getitem_Some _ g ∅) by apply lookup_insert_eq.
    rewrite bind_ret. cbn [ret result snd default]. by rewrite insert_insert_eq.
Qed.

Lemma result_get_exif_loop_cons (tag : string) (value : IfdTag)
    (rest : list (string * IfdTag))
    (grouped : gmap string (gmap string string)) :
  result (get_exif_loop ((tag, value) :: rest) grouped)
  = match result (get_exif_body grouped tag value) with
    | Returned grouped' => result (get_exif_loop rest grouped')
    | Raised e => Raised e
    end.
Proof. cbn [get_exif_loop]. apply result_bind. Qed.

(** The loop returns the grouped dictionary on well-formed tags and raises
    [IndexError] otherwise. *)
Lemma get_exif_loop_result (tags : list (string * IfdTag))
    (grouped : gmap string (gmap string string)) :
  result (get_exif_loop tags grouped)
  = if well_formed tags then Returned (group_tags tags grouped)
    else Raised IndexError.
Proof.
  revert grouped. induction tags as [|[tag value] rest IH]; intros grouped.
  - done.
  - rewrite result_get_exif_loop_cons. cbn [well_formed forallb group_tags fst].
    destruct (skipped tag) eqn:Es.
    + rewrite get_exif_body_skipped by done. cbn [result snd orb andb].
      apply IH.
    + destruct (slot tag) as [[g k]|] eqn:Eslot.
      * rewrite (get_exif_body_store _ _ _ g k) by done.
        rewrite bool_decide_eq_true_2 by eauto. cbn [orb andb]. apply IH.
      * rewrite get_exif_body_malformed by done.
        rewrite bool_decide_eq_false_2 by (by intros [? ?]). done.
Qed.

Lemma get_exif_result (self : BmaClient) (fname : File) :
  result (get_exif self fname)
  = if well_formed (f_tags fname) then Returned (group_tags (f_tags fname) ∅)
    else Raised IndexError.
Proof.
  unfold get_exif. rewrite result_bind. cbn [emit result snd].
  apply get_exif_loop_result.
Qed.

(** [get_exif] only ever logs at debug level. *)
Lemma get_exif_body_trace (grouped : gmap string (gmap string string))
    (tag : string) (value : IfdTag) (ev : event) :
  ev ∈ trace (get_exif_body grouped tag value) ->
  exists msg, ev = Log DEBUG msg.
Proof.
  unfold get_exif_body. destruct (bool_decide _).
  - cbn. intros ->%list_elem_of_singleton. eauto.
  - destruct (split_on " "%char tag) as [|group key];
      [by intros ?%elem_of_nil|].
    destruct (last key) as [k|]; [|by intros ?%elem_of_nil].
    rewrite trace_bind. cbn [logger_debug emit trace result fst snd].
    destruct (match grouped !! group with
              | Some _ => grouped
              | None => <[group:=∅]> grouped
              end !! group) as [inner|] eqn:E.
    + rewrite (getitem_Some _ _ _ E), bind_ret. cbn.
      intros ->%list_elem_of_singleton. eauto.
    + rewrite (getitem_None _ _ E), bind_raise. cbn.
      intros ->%list_elem_of_singleton. eauto.
Qed.

Lemma get_exif_loop_trace (tags : list (string * IfdTag))
    (grouped : gmap string (gmap string string)) (ev : event) :
  ev ∈ trace (get_exif_loop tags grouped) -> exists msg, ev = Log DEBUG msg.
Proof.
  revert grouped. induction tags as [|[tag value] rest IH]; intros grouped.
  - by intros ?%elem_of_nil.
  - cbn [get_exif_loop]. rewrite trace_bind.
    intros [H|H]%elem_of_app; [by eapply get_exif_body_trace|].
    destruct (result (get_exif_body grouped tag value)); [by eapply IH|].
    by apply elem_of_nil in H.
Qed.

(** The skip list [get_exif] consults is the module constant, whatever
    client it is called on. *)
Remark get_exif_any_client (self self' : BmaClient) (fname : File) :
  get_exif self fname = get_exif self' fname.
Proof. reflexivity. Qed.

Lemma entry_store (g k s g' k' : string)
    (grouped : gmap string (gmap string string)) :
  entry (store g k s grouped) g' k'
  = if decide ((g, k) = (g', k')) then Some s else entry grouped g' k'.
Proof.
  unfold entry, store. destruct (decide (g = g')) as [->|Hg].
  - rewrite lookup_insert_eq. cbn. destruct (decide (k = k')) as [->|Hk].
    + rewrite lookup_insert_eq. by rewrite decide_True.
    + rewrite lookup_insert_ne by done.
      rewrite decide_False by congruence.
      by destruct (grouped !! g').
  - rewrite lookup_insert_ne by done. rewrite decide_False by congruence. done.
Qed.

Lemma entry_empty (g k : string) : entry ∅ g k = None.
Proof. unfold entry. by rewrite lookup_empty. Qed.

Lemma not_skipped (tag : string) :
  tag ∉ SKIP_EXIF_TAGS <-> skipped tag = false.
Proof. unfold skipped. by rewrite bool_decide_eq_false. Qed.

(** *** Keys without a space *)

Lemma split_on_no_space (s : string) :
  has_space s = false -> split_on " "%char s = [s].
Proof.
  induction s as [|c s IH]; simpl; [done|].
  intros [Hc Hs]%orb_false_iff. rewrite Hc. by rewrite (IH Hs).
Qed.

Lemma slot_no_space (tag : string) : has_space tag = false -> slot tag = None.
Proof. intros H. unfold slot. by rewrite (split_on_no_space tag H). Qed.

Lemma well_formed_false (tags : list (string * IfdTag)) (tag : string)
    (value : IfdTag) :
  (tag, value) ∈ tags -> skipped tag = false -> slot tag = None ->
  well_formed tags = false.
Proof.
  intros Hin Hs Hslot. destruct (well_formed tags) eqn:E; [|done].
  unfold well_formed in E. rewrite forallb_forall in E.
  apply list_elem_of_In, E in Hin. cbn [fst] in Hin.
  rewrite Hs, Hslot in Hin. by cbn in Hin.
Qed.

(** C4 (as stated). On a tag set whose second key is the single token
    ["Bogus"], [get_exif] stops at that key with [IndexError]: it returns
    no grouped output for the two well-formed keys around it, never reaches
    the third key, and logs nothing about the malformed one. *)
Lemma bogus_key_aborts_extraction :
  result (get_exif sample_client (tag_file bogus_tags)) = Raised IndexError
  /\ trace (get_exif sample_client (tag_file bogus_tags))
     = [ ProcessFile "orig.jpg";
         Log DEBUG "Group: Image Key: Make, type 2, len 5, value Canon" ]
  /\ result (get_exif sample_client (tag_file bogus_tags))
     <> Returned (group_tags (without "Bogus" bogus_tags) ∅).
Proof.
  assert (E : get_exif sample_client (tag_file bogus_tags)
              = ([ ProcessFile "orig.jpg";
                   Log DEBUG
                     "Group: Image Key: Make, type 2, len 5, value Canon" ],
                 Raised IndexError)) by (vm_compute; reflexivity).
  rewrite E. cbn [trace result fst snd]. done.
Qed.

(** C4 (amended). A key that is not in the skip list and contains no space
    (a single token) is not skipped: [get_exif] raises [IndexError] on it,
    so the whole extraction is aborted and no grouped output is returned
    for any key of the tag set. *)
Theorem single_token_key_aborts (self : BmaClient) (fname : File)
    (tag : string) (value : IfdTag) :
  (tag, value) ∈ f_tags fname ->
  tag ∉ SKIP_EXIF_TAGS ->
  has_space tag = false ->
  result (get_exif self fname) = Raised IndexError.
Proof.
  intros Hin Hskip Hsp. rewrite get_exif_result.
  rewrite (well_formed_false _ tag value Hin); [done|by apply not_skipped|].
  by apply slot_no_space.
Qed.

Lemma single_token_key_aborts_witness :
  result (get_exif sample_client (tag_file bogus_tags)) = Raised IndexError.
Proof.
  apply (single_token_key_aborts sample_client (tag_file bogus_tags)
           "Bogus" (int_tag 1)).
  - simpl. unfold bogus_tags. set_solver.
  - by apply not_skipped.
  - reflexivity.
Defined.

(** *** The skip list *)

Lemma well_formed_without (k : string) (tags : list (string * IfdTag)) :
  skipped k = true -> well_formed (without k tags) = well_formed tags.
Proof.
  intros Hk. induction tags as [|[tag value] rest IH]; [done|].
  unfold without in *. destruct (decide (tag = k)) as [->|Hne].
  - rewrite filter_cons_False by (cbn; by intros []).
    rewrite IH. cbn [well_formed forallb fst]. by rewrite Hk.
  - rewrite filter_cons_True by done.
    cbn [well_formed forallb]. unfold well_formed in IH. by rewrite IH.
Qed.

Lemma group_tags_without (k : string) (tags : list (string * IfdTag))
    (grouped : gmap string (gmap string string)) :
  skipped k = true ->
  group_tags (without k tags) grouped = group_tags tags grouped.
Proof.
  intros Hk. revert grouped.
  induction tags as [|[tag value] rest IH]; intros grouped; [done|].
  unfold without in *. destruct (decide (tag = k)) as [->|Hne].
  - rewrite filter_cons_False by (cbn; by intros []).
    rewrite IH. cbn [group_tags]. by rewrite Hk.
  - rewrite filter_cons_True by done. cbn [group_tags].
    destruct (skipped tag); [apply IH|].
    destruct (slot tag) as [[g t]|]; [apply IH|done].
Qed.

(** Where the entries of the grouped dictionary come from. *)
Lemma group_tags_entry (tags : list (string * IfdTag))
    (grouped : gmap string (gmap string string)) (g k s : string) :
  entry (group_tags tags grouped) g k = Some s ->
  entry grouped g k = Some s
  \/ exists tag value,
       (tag, value) ∈ tags /\ skipped tag = false
       /\ slot tag = Some (g, k) /\ s = printable value.
Proof.
  revert grouped. induction tags as [|[tag value] rest IH]; intros grouped H.
  - by left.
  - cbn [group_tags] in H. destruct (skipped tag) eqn:Es.
    + destruct (IH _ H) as [?|(tag' & value' & ? & ?)]; [by left|].
      right. exists tag', value'. split; [by apply list_elem_of_further|done].
    + destruct (slot tag) as [[g0 k0]|] eqn:Eslot; [|by left].
      destruct (IH _ H) as [H'|(tag' & value' & ? & ?)].
      * rewrite entry_store in H'. case_decide as Heq; [|by left].
        injection Heq as -> ->. injection H' as <-.
        right. exists tag, value. split; [apply list_elem_of_here|done].
      * right. exists tag', value'. split; [by apply list_elem_of_further|done].
Qed.

(** C5. For every key in the skip list a client is constructed with,
    [get_exif] drops the key before grouping: the outcome is the one for
    the tag set without that key, and every entry of the grouped output,
    under whatever group, comes from a key other than it. *)
Theorem skip_list_key_never_grouped
    (client_id token directory url : string) (fname : File) (k : string) :
  let self := BmaClient_init client_id token directory url in
  k ∈ skip_exif_tags self ->
  result (get_exif self fname)
  = result (get_exif self (with_tags fname (without k (f_tags fname))))
  /\ forall grouped g t s,
       result (get_exif self fname) = Returned grouped ->
       entry grouped g t = Some s ->
       exists tag value,
         (tag, value) ∈ f_tags fname /\ tag <> k
         /\ slot tag = Some (g, t) /\ s = printable value.
Proof.
  intros self Hk. cbn [self BmaClient_init skip_exif_tags] in Hk.
  assert (Hs : skipped k = true) by (by apply bool_decide_eq_true_2).
  split.
  - rewrite !get_exif_result. cbn [with_tags f_tags].
    by rewrite well_formed_without, group_tags_without.
  - intros grouped g t s. rewrite get_exif_result.
    destruct (well_formed (f_tags fname)); [|done]. intros [= <-] He.
    apply group_tags_entry in He as [He|(tag & value & Hin & Hns & Hslot & ->)].
    + by rewrite entry_empty in He.
    + exists tag, value. repeat split; try done. intros ->. congruence.
Qed.

Lemma skip_list_key_never_grouped_witness :
  result (get_exif sample_client (tag_file thumbnail_tags))
  = result (get_exif sample_client
              (tag_file [("Image ExifOffset", int_tag 266)])).
Proof.
  apply (skip_list_key_never_grouped "client" "token" "/tmp"
           "https://media.bornhack.dk" (tag_file thumbnail_tags)
           "JPEGThumbnail").
  simpl. set_solver.
Defined.

(** *** One key, and the keys after it *)

Lemma well_formed_app (l1 l2 : list (string * IfdTag)) :
  well_formed (l1 ++ l2) = well_formed l1 && well_formed l2.
Proof. apply forallb_app. Qed.

Lemma group_tags_app (l1 l2 : list (string * IfdTag))
    (grouped : gmap string (gmap string string)) :
  well_formed l1 = true ->
  group_tags (l1 ++ l2) grouped = group_tags l2 (group_tags l1 grouped).
Proof.
  revert grouped. induction l1 as [|[tag value] rest IH]; intros grouped H.
  - done.
  - cbn [well_formed forallb fst] in H.
    apply andb_true_iff in H as [Hhd Hrest].
    cbn [app group_tags]. destruct (skipped tag); [by apply IH|].
    destruct (slot tag) as [[g k]|]; [by apply IH|].
    by cbn in Hhd.
Qed.

Lemma group_tags_slot_free (tags : list (string * IfdTag))
    (grouped : gmap string (gmap string string)) (g t : string) :
  slot_free g t tags ->
  entry (group_tags tags grouped) g t = entry grouped g t.
Proof.
  revert grouped. induction tags as [|[tag value] rest IH]; intros grouped H.
  - done.
  - assert (Hrest : slot_free g t rest).
    { intros tag' value' Hin. apply (H tag' value').
      by apply list_elem_of_further. }
    cbn [group_tags]. destruct (skipped tag) eqn:Es; [by apply IH|].
    destruct (slot tag) as [[g0 k0]|] eqn:Eslot; [|done].
    rewrite IH by done. rewrite entry_store.
    rewrite decide_False; [done|]. intros [= -> ->].
    by apply (H tag value (list_elem_of_here _ _)).
Qed.

Lemma group_tags_last_wins (pre post : list (string * IfdTag))
    (tag : string) (value : IfdTag) (g t : string)
    (grouped : gmap string (gmap string string)) :
  well_formed pre = true ->
  skipped tag = false -> slot tag = Some (g, t) ->
  slot_free g t post ->
  entry (group_tags (pre ++ (tag, value) :: post) grouped) g t
  = Some (printable value).
Proof.
  intros Hpre Hs Hslot Hfree. rewrite group_tags_app by done.
  cbn [group_tags]. rewrite Hs, Hslot.
  rewrite group_tags_slot_free by done.
  rewrite entry_store. by rewrite decide_True.
Qed.

Lemma slot_pieces (tag g t : string) (rest : list string) :
  split_on " "%char tag = g :: rest -> last rest = Some t ->
  slot tag = Some (g, t).
Proof. unfold slot. by intros -> ->. Qed.

(** C6 (as stated). The key [tabbed_key] has the three whitespace-separated
    tokens [Image], [A] and [B], yet its value is not stored under group
    [Image] and tag [B]: [get_exif] splits on the space character only, so
    the group is everything before the space, tab included. *)
Lemma tab_is_not_a_separator :
  whitespace_tokens tabbed_key = ["Image"; "A"; "B"]
  /\ (tabbed_key ∉ SKIP_EXIF_TAGS)
  /\ exists out,
       result (get_exif sample_client (tag_file tabbed_tags)) = Returned out
       /\ entry out "Image" "B" = None
       /\ entry out ("Image" +:+ String tab "A") "B" = Some "266".
Proof.
  split; [by vm_compute|]. split; [by apply not_skipped|].
  exists (group_tags tabbed_tags ∅). split; [|split].
  - by rewrite get_exif_result.
  - by vm_compute.
  - by vm_compute.
Qed.

(** C6 (amended). For every key that is not in the skip list and that the
    space character splits into two or more pieces (pieces may be empty,
    and no other whitespace separates), with value [v]: the turn of the
    loop for that key takes the first piece as the group, the last piece as
    the tag, and stores [str(v)] at [grouped[group][tag]]; the returned
    dictionary holds it there when the extraction is not aborted and no
    later key files into the same slot. In particular the entry
    ["Image ExifOffset"] with value 266 yields
    [result["Image"]["ExifOffset"] == "266"]. *)
Theorem space_separated_key_stored
    (grouped : gmap string (gmap string string))
    (tag : string) (value : IfdTag) (g t : string) (rest : list string) :
  tag ∉ SKIP_EXIF_TAGS ->
  split_on " "%char tag = g :: rest ->
  last rest = Some t ->
  (exists grouped',
     result (get_exif_body grouped tag value) = Returned grouped'
     /\ entry grouped' g t = Some (printable value))
  /\ (forall self fname pre post,
        f_tags fname = pre ++ (tag, value) :: post ->
        well_formed (f_tags fname) = true ->
        slot_free g t post ->
        exists out,
          result (get_exif self fname) = Returned out
          /\ entry out g t = Some (printable value))
  /\ (exists out,
        result (get_exif sample_client
                  (tag_file [("Image ExifOffset", int_tag 266)]))
        = Returned out
        /\ entry out "Image" "ExifOffset" = Some "266").
Proof.
  intros Hskip%not_skipped Hsplit Hlast.
  pose proof (slot_pieces tag g t rest Hsplit Hlast) as Hslot.
  split; [|split].
  - exists (store g t (printable value) grouped). split.
    + by apply get_exif_body_store.
    + rewrite entry_store. by rewrite decide_True.
  - intros self fname pre post Htags Hwf Hfree.
    exists (group_tags (f_tags fname) ∅). split.
    + by rewrite get_exif_result, Hwf.
    + rewrite Htags in *. rewrite well_formed_app in Hwf.
      apply andb_true_iff in Hwf as [Hpre _].
      by apply group_tags_last_wins.
  - eexists. split; [by rewrite get_exif_result|by vm_compute].
Qed.

Lemma space_separated_key_stored_witness :
  exists grouped',
    result (get_exif_body ∅ "Image ExifOffset" (int_tag 266))
    = Returned grouped'
    /\ entry grouped' "Image" "ExifOffset" = Some "266".
Proof.
  refine (proj1 (space_separated_key_stored ∅ "Image ExifOffset"
                   (int_tag 266) "Image" "ExifOffset" ["ExifOffset"] _ _ _)).
  - by apply not_skipped.
  - reflexivity.
  - reflexivity.
Defined.

(** *** Colliding keys *)

Lemma lookup_uncurry_entry (grouped : gmap string (gmap string string))
    (g k : string) :
  flat grouped !! (g, k) = entry grouped g k.
Proof. apply lookup_map_uncurry. Qed.

Lemma uncurry_store (g k s : string)
    (grouped : gmap string (gmap string string)) :
  flat (store g k s grouped) = <[(g, k) := s]> (flat grouped).
Proof.
  apply map_eq. intros [g' k'].
  rewrite lookup_uncurry_entry, entry_store, lookup_insert.
  case_decide; [done|]. by rewrite lookup_uncurry_entry.
Qed.

Lemma entries_store (g k s : string)
    (grouped : gmap string (gmap string string)) :
  entries (store g k s grouped)
  = match entry grouped g k with
    | Some _ => entries grouped
    | None => S (entries grouped)
    end.
Proof.
  unfold entries. rewrite uncurry_store, map_size_insert.
  rewrite lookup_uncurry_entry. by destruct (entry grouped g k).
Qed.

Lemma entries_store_le (g k s : string)
    (grouped : gmap string (gmap string string)) :
  (entries (store g k s grouped) <= S (entries grouped))%nat.
Proof. rewrite entries_store. destruct (entry grouped g k); lia. Qed.

Lemma unskipped_cons (tag : string) (value : IfdTag)
    (rest : list (string * IfdTag)) :
  unskipped ((tag, value) :: rest)
  = if skipped tag then unskipped rest else S (unskipped rest).
Proof.
  unfold unskipped. destruct (skipped tag) eqn:E.
  - rewrite filter_cons_False; [done|]. cbn. by rewrite E.
  - rewrite filter_cons_True; [done|]. done.
Qed.

Lemma unskipped_app (l1 l2 : list (string * IfdTag)) :
  unskipped (l1 ++ l2) = (unskipped l1 + unskipped l2)%nat.
Proof. unfold unskipped. by rewrite filter_app, length_app. Qed.

(** Each key that is not skipped adds at most one entry. *)
Lemma entries_group_tags (tags : list (string * IfdTag))
    (grouped : gmap string (gmap string string)) :
  (entries (group_tags tags grouped) <= entries grouped + unskipped tags)%nat.
Proof.
  revert grouped. induction tags as [|[tag value] rest IH]; intros grouped.
  - cbn. lia.
  - rewrite unskipped_cons. cbn [group_tags].
    destruct (skipped tag); [apply IH|].
    destruct (slot tag) as [[g k]|]; [|lia].
    pose proof (IH (store g k (printable value) grouped)).
    pose proof (entries_store_le g k (printable value) grouped). lia.
Qed.

(** An entry, once made, stays. *)
Lemma entry_group_tags_stays (tags : list (string * IfdTag))
    (grouped : gmap string (gmap string string)) (g t : string) :
  is_Some (entry grouped g t) ->
  is_Some (entry (group_tags tags grouped) g t).
Proof.
  revert grouped. induction tags as [|[tag value] rest IH]; intros grouped H.
  - done.
  - cbn [group_tags]. destruct (skipped tag); [by apply IH|].
    destruct (slot tag) as [[g0 k0]|]; [|done].
    apply IH. rewrite entry_store. by case_decide.
Qed.

Lemma entries_empty : entries ∅ = 0%nat.
Proof. done. Qed.

(** Two keys that file into one slot leave the output one entry short. *)
Lemma entries_collision (pre mid post : list (string * IfdTag))
    (k1 k2 : string) (v1 v2 : IfdTag) (g t : string) :
  well_formed (pre ++ (k1, v1) :: mid) = true ->
  skipped k1 = false -> slot k1 = Some (g, t) ->
  skipped k2 = false -> slot k2 = Some (g, t) ->
  (entries (group_tags (pre ++ (k1, v1) :: mid ++ (k2, v2) :: post) ∅)
   < unskipped (pre ++ (k1, v1) :: mid ++ (k2, v2) :: post))%nat.
Proof.
  intros Hwf Hs1 Hslot1 Hs2 Hslot2.
  replace (pre ++ (k1, v1) :: mid ++ (k2, v2) :: post)
    with ((pre ++ (k1, v1) :: mid) ++ (k2, v2) :: post)
    by (by rewrite <- app_assoc).
  rewrite group_tags_app by done. rewrite unskipped_app.
  rewrite unskipped_cons, Hs2. cbn [group_tags]. rewrite Hs2, Hslot2.
  set (G3 := group_tags (pre ++ (k1, v1) :: mid) ∅).
  assert (H3 : (entries G3 <= unskipped (pre ++ (k1, v1) :: mid))%nat).
  { pose proof (entries_group_tags (pre ++ (k1, v1) :: mid) ∅) as H.
    rewrite entries_empty in H. exact H. }
  assert (Hin : is_Some (entry G3 g t)).
  { unfold G3. rewrite well_formed_app in Hwf.
    apply andb_true_iff in Hwf as [Hpre _].
    rewrite group_tags_app by done. cbn [group_tags]. rewrite Hs1, Hslot1.
    apply entry_group_tags_stays. rewrite entry_store.
    rewrite decide_True by done. eauto. }
  pose proof (entries_group_tags post (store g t (printable v2) G3)) as H5.
  rewrite entries_store in H5. destruct Hin as [s Hin]. rewrite Hin in H5.
  lia.
Qed.

(** C10. When two keys that are not skipped share the first and the last
    piece, the grouped output has the single slot [grouped[group][tag]] for
    both: the value of the key processed later replaces the earlier one
    without any record above debug level, and the output holds strictly
    fewer entries than the tag set has keys that are not skipped. *)
Theorem colliding_keys_overwrite (self : BmaClient) (fname : File)
    (pre mid post : list (string * IfdTag)) (k1 k2 : string)
    (v1 v2 : IfdTag) (g t : string) :
  f_tags fname = pre ++ (k1, v1) :: mid ++ (k2, v2) :: post ->
  k1 ∉ SKIP_EXIF_TAGS -> k2 ∉ SKIP_EXIF_TAGS ->
  slot k1 = Some (g, t) -> slot k2 = Some (g, t) ->
  well_formed (f_tags fname) = true ->
  slot_free g t post ->
  (exists out,
     result (get_exif self fname) = Returned out
     /\ entry out g t = Some (printable v2)
     /\ (entries out < unskipped (f_tags fname))%nat)
  /\ (forall lvl msg,
        Log lvl msg ∈ trace (get_exif self fname) -> lvl = DEBUG).
Proof.
  intros Htags Hs1%not_skipped Hs2%not_skipped Hslot1 Hslot2 Hwf Hfree. split.
  - exists (group_tags (f_tags fname) ∅).
    split; [by rewrite get_exif_result, Hwf|].
    rewrite Htags in *.
    replace (pre ++ (k1, v1) :: mid ++ (k2, v2) :: post)
      with ((pre ++ (k1, v1) :: mid) ++ (k2, v2) :: post) in Hwf |- *
      by (by rewrite <- app_assoc).
    rewrite well_formed_app in Hwf. apply andb_true_iff in Hwf as [Hpre _].
    split; [by apply (group_tags_last_wins _ post k2 v2 g t)|].
    rewrite <- app_assoc. cbn [app].
    by apply (entries_collision pre mid post k1 k2 v1 v2 g t).
  - intros lvl msg. unfold get_exif. rewrite trace_bind.
    cbn [emit trace result fst snd].
    intros [H|H]%elem_of_cons; [done|].
    apply get_exif_loop_trace in H as [msg' [= -> _]]. done.
Qed.

Lemma colliding_keys_overwrite_witness :
  exists out,
    result (get_exif sample_client (tag_file colliding_tags)) = Returned out
    /\ entry out "Image" "X" = Some "2"
    /\ (entries out < 2)%nat.
Proof.
  refine (proj1 (colliding_keys_overwrite sample_client
                   (tag_file colliding_tags) [] [] []
                   "Image X" "Image A X" (int_tag 1) (int_tag 2)
                   "Image" "X" _ _ _ _ _ _ _)).
  - reflexivity.
  - by apply not_skipped.
  - by apply not_skipped.
  - reflexivity.
  - reflexivity.
  - reflexivity.
  - intros tag value Hin. by apply elem_of_nil in Hin.
Defined.

(** * Further properties *)

(** ** Conversion jobs: what a run consists of *)

Lemma calc_size_silent (job : gmap string PyVal) (image_size : Z * Z) :
  trace (calc_size job image_size) = [].
Proof.
  unfold calc_size, getitem, Fraction, truediv_Fraction, floor_val.
  repeat (rewrite ?trace_bind, ?result_bind;
          cbn [trace result fst snd ret raise app];
          first [ progress case_match | done ]).
Qed.

Lemma trace_fit_only (image_size size : Z * Z) :
  trace (ImageOps.fit image_size size) = [Fit size].
Proof.
  unfold ImageOps.fit, resize.
  repeat (rewrite ?trace_bind, ?result_bind;
          cbn [trace result fst snd ret raise emit app];
          first [ progress case_match | done ]).
Qed.

Lemma trace_thumbnail_only (image_size size : Z * Z) :
  trace (thumbnail image_size size) = [Thumbnail size].
Proof.
  unfold thumbnail, preserve_aspect_ratio, resize.
  repeat (rewrite ?trace_bind, ?result_bind;
          cbn [trace result fst snd ret raise emit app];
          first [ progress case_match | done ]).
Qed.

Lemma trace_resize_step (image_size : Z * Z) (ratio : option Q)
    (size : Z * Z) :
  trace (resize_step image_size ratio size) = [resize_call ratio size].
Proof.
  unfold resize_step, resize_call. destruct (ratio_truthy ratio).
  - apply trace_fit_only.
  - apply trace_thumbnail_only.
Qed.

Section ConversionRun.

Context (self : BmaClient) (job : gmap string PyVal) (orig : File)
  (im : Image).
Hypothesis opened : f_image orig = Some im.

Local Abbreviation natural := (im_size (ImageOps.exif_transpose im)).

(** A job that fails while the size is computed stops right after the
    prelude, with that exception. *)
Lemma conversion_calc_raises (e : exn) :
  result (calc_size job natural) = Raised e ->
  handle_image_conversion_job self job orig
  = (conversion_prelude orig, Raised e).
Proof.
  intros H. rewrite (conversion_run self job orig im opened).
  pose proof (calc_size_silent job natural) as Ht.
  destruct (calc_size job natural) as [t r]. cbn [trace result fst snd] in *.
  subst t r. reflexivity.
Qed.

(** The outcome of any job on a decodable file. *)
Lemma conversion_result_any :
  result (handle_image_conversion_job self job orig)
  = match result (calc_size job natural) with
    | Returned rs =>
        match result (resize_step natural (fst rs) (snd rs)) with
        | Returned out => Returned (out, im_exif (ImageOps.exif_transpose im))
        | Raised e => Raised e
        end
    | Raised e => Raised e
    end.
Proof.
  rewrite (conversion_run self job orig im opened).
  rewrite result_bind. cbn [result snd]. rewrite result_bind.
  destruct (result (calc_size job natural)) as [rs|e]; [|done].
  rewrite result_bind. cbn [emit result snd]. rewrite result_bind.
  by destruct (result (resize_step _ _ _)).
Qed.

(** The events of any job on a decodable file. *)
Lemma conversion_trace_any :
  trace (handle_image_conversion_job self job orig)
  = conversion_prelude orig
    ++ match result (calc_size job natural) with
       | Returned rs =>
           desired_record (fst rs) (snd rs)
           :: resize_call (fst rs) (snd rs)
           :: match result (resize_step natural (fst rs) (snd rs)) with
              | Returned _ => [Log DEBUG "Done, returning result..."]
              | Raised _ => []
              end
       | Raised _ => []
       end.
Proof.
  rewrite (conversion_run self job orig im opened).
  rewrite trace_bind. cbn [trace result fst snd]. f_equal.
  rewrite trace_bind, calc_size_silent. cbn [app].
  destruct (result (calc_size job natural)) as [rs|e]; [|done].
  rewrite trace_bind. cbn [emit trace result fst snd app]. f_equal.
  rewrite trace_bind, trace_resize_step. cbn [app]. f_equal.
Qed.

End ConversionRun.

(** ** Conversion jobs: keys and types *)

Lemma undecodable_file_raw (self : BmaClient) (job : gmap string PyVal)
    (orig : File) :
  f_image orig = None ->
  handle_image_conversion_job self job orig
  = ([ Log DEBUG ("Opening original image " +:+ f_path orig +:+ "...");
       ImageOpen (f_path orig) ],
     Raised UnidentifiedImageError).
Proof.
  intros H. unfold handle_image_conversion_job, Image_open. by rewrite H.
Qed.

(** X1. The keys a conversion job must carry. [aspect_ratio_numerator] is
    read first and is required even for a natural-ratio job;
    [aspect_ratio_denominator] is required only when the numerator is
    truthy; [width] is required once the ratio test has failed. Each
    missing key surfaces as [KeyError] naming it, and only after the image
    has been opened and orientation-normalised. *)
Theorem conversion_job_missing_key (self : BmaClient)
    (job : gmap string PyVal) (orig : File) (im : Image) :
  f_image orig = Some im ->
  (job !! "aspect_ratio_numerator" = None ->
   handle_image_conversion_job self job orig
   = (conversion_prelude orig, Raised (KeyError "aspect_ratio_numerator")))
  /\ (forall n,
        job !! "aspect_ratio_numerator" = Some n -> truthy n = true ->
        job !! "aspect_ratio_denominator" = None ->
        handle_image_conversion_job self job orig
        = (conversion_prelude orig,
           Raised (KeyError "aspect_ratio_denominator")))
  /\ (ratio_unset job -> job !! "width" = None ->
      handle_image_conversion_job self job orig
      = (conversion_prelude orig, Raised (KeyError "width"))).
Proof.
  intros Him. split; [|split].
  - intros HN. apply (conversion_calc_raises self job orig im Him).
    unfold calc_size. by py_run.
  - intros n HN Hn HD. apply (conversion_calc_raises self job orig im Him).
    unfold calc_size. py_run. rewrite Hn. by py_run.
  - intros (n & HN & Hunset) HW.
    apply (conversion_calc_raises self job orig im Him).
    unfold calc_size. py_run. destruct Hunset as [Hn|(d & HD & Hd)].
    + rewrite Hn. by py_run.
    + destruct (truthy n); py_run; [rewrite Hd|]; by py_run.
Qed.

Lemma conversion_job_missing_key_witness :
  handle_image_conversion_job sample_client
    (<["width" := PyInt 800]> ∅) square_file
  = (conversion_prelude square_file,
     Raised (KeyError "aspect_ratio_numerator")).
Proof.
  apply (proj1 (conversion_job_missing_key sample_client
                  (<["width" := PyInt 800]> ∅) square_file
                  (blank_image 100 100 ∅) ltac:(reflexivity))).
  reflexivity.
Defined.

(** With the ratio test failed, the size depends on the job through its
    width alone. *)
Lemma calc_size_ratio_unset (job : gmap string PyVal) (image_size : Z * Z) :
  ratio_unset job ->
  calc_size job image_size
  = (w <- getitem job "width" ;;
     f <- Fraction (PyInt (fst image_size)) (PyInt (snd image_size)) ;;
     q <- truediv_Fraction w f ;;
     w' <- getitem job "width" ;;
     fw <- floor_val w' ;;
     ret (None, (fw, floor_Fraction q))).
Proof.
  intros (n & HN & Hunset). unfold calc_size. py_run.
  assert (E : (if truthy n
               then d <- getitem job "aspect_ratio_denominator" ;;
                    ret (truthy d)
               else ret false) = ret false).
  { destruct Hunset as [->|(d & HD & Hd)]; [done|].
    destruct (truthy n); [|done]. py_run. by rewrite Hd. }
  rewrite E. py_run. unfold getitem.
  destruct (job !! "width") as [w|]; [|done]. py_run.
  unfold Fraction. destruct (snd image_size =? 0); [done|]. py_run.
  destruct w as [|W|s]; try done. unfold truediv_Fraction.
  destruct (Qnum _ =? 0); [done|]. by py_run.
Qed.

Lemma conversion_job_congruence (self : BmaClient)
    (job job' : gmap string PyVal) (orig : File) :
  (forall image_size, calc_size job image_size = calc_size job' image_size) ->
  handle_image_conversion_job self job orig
  = handle_image_conversion_job self job' orig.
Proof.
  intros H. destruct (f_image orig) as [im|] eqn:Him.
  - rewrite (conversion_run self job orig im Him).
    rewrite (conversion_run self job' orig im Him). by rewrite H.
  - by rewrite !undecodable_file_raw.
Qed.

(** X2. A ratio that is only half given counts as no ratio. When the
    numerator is [None] or 0, or the denominator is, the job is a
    natural-ratio job: two such jobs with the same width do exactly the
    same on every file, whatever their ratio fields hold (the denominator
    key may even be absent when the numerator is falsy). *)
Theorem unset_ratio_is_natural (self : BmaClient)
    (job job' : gmap string PyVal) (orig : File) :
  ratio_unset job -> ratio_unset job' ->
  job !! "width" = job' !! "width" ->
  handle_image_conversion_job self job orig
  = handle_image_conversion_job self job' orig.
Proof.
  intros Hu Hu' HW. apply conversion_job_congruence. intros image_size.
  rewrite !calc_size_ratio_unset by done. unfold getitem. by rewrite HW.
Qed.

Lemma unset_ratio_is_natural_witness :
  handle_image_conversion_job sample_client half_ratio_job photo_file
  = handle_image_conversion_job sample_client (natural_job 1024) photo_file.
Proof.
  apply (unset_ratio_is_natural sample_client half_ratio_job
           (natural_job 1024) photo_file).
  - exists (PyInt 16). split; [reflexivity|]. right.
    exists PyNone. split; reflexivity.
  - exists PyNone. split; [reflexivity|]. by left.
  - reflexivity.
Defined.

(** X3. A width that is not an integer (a string, as the annotation
    [dict[str, str]] would have it, or [None]) raises [TypeError] in the
    division by the ratio, in both modes, after the image has been opened
    and orientation-normalised. *)
Theorem non_integer_width_raises_TypeError (self : BmaClient)
    (job : gmap string PyVal) (orig : File) (im : Image) (w : PyVal)
    (aspect : option (Z * Z)) :
  f_image orig = Some im ->
  job !! "width" = Some w ->
  (forall n, w <> PyInt n) ->
  job_aspect job (im_size (ImageOps.exif_transpose im)) aspect ->
  handle_image_conversion_job self job orig
  = (conversion_prelude orig, Raised TypeError).
Proof.
  intros Him HW Hw Ha. apply (conversion_calc_raises self job orig im Him).
  unfold calc_size. destruct aspect as [[n d]|]; simpl in Ha.
  - destruct Ha as (HN & HD & Hn & Hd). py_run.
    rewrite truthy_PyInt by lia. py_run.
    rewrite truthy_PyInt by lia. py_run.
    rewrite Fraction_ints by lia. py_run.
    destruct w as [|n'|s]; [done|by destruct (Hw n')|done].
  - destruct Ha as (HN & HD & Hw0 & Hh0). py_run. simpl truthy. py_run.
    rewrite Fraction_ints by lia. py_run.
    destruct w as [|n'|s]; [done|by destruct (Hw n')|done].
Qed.

Lemma non_integer_width_raises_TypeError_witness :
  handle_image_conversion_job sample_client string_width_job photo_file
  = (conversion_prelude photo_file, Raised TypeError).
Proof.
  apply (non_integer_width_raises_TypeError sample_client string_width_job
           photo_file (blank_image 4000 3000 ∅) (PyStr "1024")
           (Some (16, 9))).
  - reflexivity.
  - reflexivity.
  - intros n. discriminate.
  - simpl. repeat split; (reflexivity || lia).
Defined.

(** ** Conversion jobs: degenerate and exact sizes *)

Lemma fit_zero_height (w0 h0 W : Z) :
  h0 <> 0 -> result (ImageOps.fit (w0, h0) (W, 0)) = Raised ZeroDivisionError.
Proof.
  intros Hh. unfold ImageOps.fit. rewrite result_bind.
  cbn [emit result fst snd]. by apply Z.eqb_neq in Hh as ->.
Qed.

Lemma thumbnail_zero_height (w0 h0 W : Z) :
  0 < h0 -> result (thumbnail (w0, h0) (W, 0)) = Raised ZeroDivisionError.
Proof.
  intros Hh. unfold thumbnail. rewrite result_bind. cbn [emit result snd].
  rewrite result_bind. unfold preserve_aspect_ratio.
  replace (h0 <=? 0) with false by lia. rewrite andb_false_r.
  by replace (h0 =? 0) with false by lia.
Qed.

Lemma resolved_height_nonneg (natural : Z * Z) (W : Z)
    (aspect : option (Z * Z)) (job : gmap string PyVal) :
  0 < W -> 0 < fst natural -> 0 < snd natural ->
  job_aspect job natural aspect ->
  0 <= snd (GeometryResolver natural W aspect).
Proof.
  intros HW Hw Hh Ha. destruct aspect as [[n d]|]; simpl in *.
  - destruct Ha as (_ & _ & Hn & Hd). apply Z.div_pos; nia.
  - apply Z.div_pos; nia.
Qed.

(** X4. Whether a job with a positive width on a proper image produces an
    image is decided by the resolved height alone: the job returns when
    the height is at least 1, and when the height floors to 0 (the
    requested width is too small for the ratio) it ends in
    [ZeroDivisionError], in custom-ratio and in natural-ratio mode alike. *)
Theorem conversion_returns_iff_height (self : BmaClient)
    (job : gmap string PyVal) (orig : File) (im : Image) (W : Z)
    (aspect : option (Z * Z)) :
  0 < W ->
  f_image orig = Some im ->
  0 < fst (im_size (ImageOps.exif_transpose im)) ->
  0 < snd (im_size (ImageOps.exif_transpose im)) ->
  job !! "width" = Some (PyInt W) ->
  job_aspect job (im_size (ImageOps.exif_transpose im)) aspect ->
  let natural := im_size (ImageOps.exif_transpose im) in
  let size := GeometryResolver natural W aspect in
  (1 <= snd size ->
   exists out exif,
     result (handle_image_conversion_job self job orig) = Returned (out, exif))
  /\ (snd size < 1 ->
      result (handle_image_conversion_job self job orig)
      = Raised ZeroDivisionError).
Proof.
  intros HWpos Him Hw Hh HW Ha natural size.
  pose proof (resolved_height_nonneg natural W aspect job HWpos Hw Hh Ha)
    as Hnn. fold size in Hnn.
  rewrite (conversion_outcome self job orig im Him W aspect HW Ha).
  cbv zeta. unfold size, natural in *. clear size natural.
  destruct (im_size (ImageOps.exif_transpose im)) as [w0 h0].
  simpl in Hw, Hh.
  destruct aspect as [[n d]|]; cbn [GeometryResolver fst snd] in *.
  - split.
    + intros HH. rewrite fit_returns by lia. eauto.
    + intros HH. replace (W * d / n) with 0 by lia.
      by rewrite fit_zero_height by lia.
  - split.
    + intros HH.
      destruct (thumbnail_returns w0 h0 W (W * h0 / w0)) as [out ->];
        try lia.
      eauto.
    + intros HH. replace (W * h0 / w0) with 0 by lia.
      by rewrite thumbnail_zero_height by lia.
Qed.

Lemma conversion_returns_iff_height_witness :
  result (handle_image_conversion_job sample_client (natural_job 3)
            panorama_file)
  = Raised ZeroDivisionError.
Proof.
  refine (proj2 (conversion_returns_iff_height sample_client (natural_job 3)
                   panorama_file (blank_image 4000 1000 ∅) 3 None
                   _ _ _ _ _ _) _); try reflexivity; by vm_compute.
Defined.

(** ** Conversion jobs: a ratio below zero *)

Lemma floor_div_Fraction_signed (W n d : Z) :
  n <> 0 -> d <> 0 ->
  Qfloor (Qred (Qz W / Qred (Qz n / Qz d))) = (W * d) / n.
Proof.
  intros Hn Hd. destruct (Z_lt_le_dec 0 n) as [Hpos|Hneg].
  - by apply floor_div_Fraction.
  - rewrite Qfloor_Qred. rewrite <- (Z.div_opp_opp (W * d) n) by done.
    rewrite <- (Qfloor_Qz_div (- (W * d)) (- n)) by lia.
    apply Qfloor_comp. rewrite Qred_correct.
    unfold Qz. rewrite !inject_Z_opp, inject_Z_mult.
    field. repeat split; apply Qz_nonzero; lia.
Qed.

Lemma calc_size_custom_signed (job : gmap string PyVal) (image_size : Z * Z)
    (W n d : Z) :
  n <> 0 -> d <> 0 ->
  job !! "width" = Some (PyInt W) ->
  job !! "aspect_ratio_numerator" = Some (PyInt n) ->
  job !! "aspect_ratio_denominator" = Some (PyInt d) ->
  calc_size job image_size
  = ret (Some (Qred (Qz n / Qz d)), (W, (W * d) / n)).
Proof.
  intros Hn Hd HW HN HD. unfold calc_size. py_run.
  rewrite truthy_PyInt by done. py_run.
  rewrite truthy_PyInt by done. py_run.
  rewrite Fraction_ints by done. py_run.
  rewrite truediv_Fraction_int
    by (apply Qred_nonzero, Qz_div_nonzero; lia).
  py_run. simpl. unfold floor_Fraction.
  rewrite floor_div_Fraction_signed by done. done.
Qed.

Lemma opposite_signs (n d : Z) :
  n * d < 0 -> (0 < n /\ d < 0) \/ (n < 0 /\ 0 < d).
Proof.
  intros H. destruct (Z.lt_trichotomy n 0) as [?|[->|?]]; [|lia|].
  - right. split; [done|]. apply Z.lt_nge. intros ?.
    pose proof (Z.mul_nonpos_nonneg n d). lia.
  - left. split; [lia|]. apply Z.lt_nge. intros ?.
    pose proof (Z.mul_nonneg_nonneg n d). lia.
Qed.

Lemma signed_height_negative (W n d : Z) :
  0 < W -> n * d < 0 -> W * d / n < 0.
Proof.
  intros HW [[Hn Hd]|[Hn Hd]]%opposite_signs.
  - apply Z.div_lt_upper_bound; [done|]. nia.
  - rewrite <- Z.div_opp_opp by lia. apply Z.div_lt_upper_bound; [lia|]. nia.
Qed.

Lemma Qz_div_negative (a b : Z) : 0 < a -> b < 0 -> (Qz a / Qz b < 0)%Q.
Proof.
  intros Ha Hb. destruct b as [|p|p]; try lia.
  unfold Qz, inject_Z, Qdiv, Qinv, Qmult, Qlt. simpl. lia.
Qed.

Lemma resize_negative_height (self size : Z * Z) (box : Box) :
  0 < snd self -> snd size < 0 ->
  resize self size box false = raise ValueError.
Proof.
  intros Hs Hn. unfold resize, size_eqb.
  replace (snd self =? snd size) with false by lia.
  rewrite andb_false_r. cbn [andb].
  destruct box as [[[b0 b1] b2] b3].
  replace (snd size <? 1) with true by lia. by rewrite orb_true_r.
Qed.

Lemma fit_negative_height (w0 h0 W H : Z) :
  0 < w0 -> 0 < h0 -> 0 < W -> H < 0 ->
  result (ImageOps.fit (w0, h0) (W, H)) = Raised ValueError.
Proof.
  intros Hw Hh HW HH. unfold ImageOps.fit. rewrite result_bind.
  cbn [emit result fst snd].
  replace (h0 =? 0) with false by lia.
  replace (H =? 0) with false by lia.
  rewrite result_bind.
  pose proof (Qz_div_pos w0 h0 Hw Hh) as PL.
  pose proof (Qz_div_negative W H HW HH) as Pr.
  set (r := (Qz W / Qz H)%Q) in *. set (L := (Qz w0 / Qz h0)%Q) in *.
  destruct (Qeq_bool L r) eqn:E1.
  { apply Qeq_bool_eq in E1. lra. }
  assert (E2 : Qle_bool r L = true) by (apply Qle_bool_iff; lra).
  rewrite E2. cbn [ret result snd].
  by rewrite resize_negative_height.
Qed.

(** X5. A ratio below zero (numerator and denominator of opposite signs)
    is not refused by the handler. On a proper image and with a positive
    width the size is resolved to a negative height, logged and handed to
    [ImageOps.fit], and the job ends in the [ValueError] that Pillow
    raises for it. *)
Theorem negative_ratio_fails_in_fit (self : BmaClient)
    (job : gmap string PyVal) (orig : File) (im : Image) (W n d : Z) :
  f_image orig = Some im ->
  0 < fst (im_size (ImageOps.exif_transpose im)) ->
  0 < snd (im_size (ImageOps.exif_transpose im)) ->
  0 < W ->
  job !! "width" = Some (PyInt W) ->
  job !! "aspect_ratio_numerator" = Some (PyInt n) ->
  job !! "aspect_ratio_denominator" = Some (PyInt d) ->
  n * d < 0 ->
  W * d / n < 0
  /\ result (handle_image_conversion_job self job orig) = Raised ValueError
  /\ trace (handle_image_conversion_job self job orig)
     = conversion_prelude orig
       ++ [ desired_record (Some (Qred (Qz n / Qz d))) (W, W * d / n);
            Fit (W, W * d / n) ].
Proof.
  intros Him Hw Hh HW Hwidth Hn Hd Hnd.
  pose proof (signed_height_negative W n d HW Hnd) as Hneg.
  pose proof (calc_size_custom_signed job
                (im_size (ImageOps.exif_transpose im)) W n d
                ltac:(intros ->; lia) ltac:(intros ->; lia) Hwidth Hn Hd) as Hcalc.
  assert (Htruthy : ratio_truthy (Some (Qred (Qz n / Qz d))) = true).
  { cbn [ratio_truthy]. unfold Fraction_truthy.
    apply negb_true_iff, Z.eqb_neq. rewrite Qnum_Qred_zero.
    apply Qz_div_nonzero; intros ->; lia. }
  assert (Hfit : result (resize_step (im_size (ImageOps.exif_transpose im))
                           (Some (Qred (Qz n / Qz d))) (W, W * d / n))
                 = Raised ValueError).
  { unfold resize_step. rewrite Htruthy.
    destruct (im_size (ImageOps.exif_transpose im)) as [w0 h0].
    by apply fit_negative_height. }
  split; [done|]. split.
  - rewrite (conversion_result_any self job orig im Him), Hcalc.
    cbn [ret result fst snd]. by rewrite Hfit.
  - rewrite (conversion_trace_any self job orig im Him), Hcalc.
    cbn [ret result fst snd]. rewrite Hfit.
    unfold resize_call. by rewrite Htruthy.
Qed.

Lemma negative_ratio_fails_in_fit_witness :
  result (handle_image_conversion_job sample_client negative_ratio_job
            photo_file)
  = Raised ValueError.
Proof.
  refine (proj1 (proj2 (negative_ratio_fails_in_fit sample_client
                          negative_ratio_job photo_file
                          (blank_image 4000 3000 ∅) 1024 16 (-9)
                          _ _ _ _ _ _ _ _)));
    first [ reflexivity | by vm_compute ].
Defined.

(** X6. A natural-ratio job never enlarges: when the requested width is at
    least the width of the orientation-normalised source, the image comes
    back at exactly its own size, together with its EXIF data. *)
Theorem wide_request_returns_source_size (self : BmaClient)
    (job : gmap string PyVal) (orig : File) (im : Image) (W : Z) :
  f_image orig = Some im ->
  job !! "width" = Some (PyInt W) ->
  job_aspect job (im_size (ImageOps.exif_transpose im)) None ->
  fst (im_size (ImageOps.exif_transpose im)) <= W ->
  result (handle_image_conversion_job self job orig)
  = Returned (im_size (ImageOps.exif_transpose im),
              im_exif (ImageOps.exif_transpose im)).
Proof.
  intros Him HW Ha Hwide.
  rewrite (conversion_outcome self job orig im Him W None HW Ha).
  destruct Ha as (_ & _ & Hw & Hh). cbv zeta.
  destruct (im_size (ImageOps.exif_transpose im)) as [w0 h0].
  cbn [GeometryResolver fst snd] in *.
  unfold thumbnail. rewrite result_bind. cbn [emit result snd].
  rewrite result_bind. unfold preserve_aspect_ratio.
  assert (h0 <= W * h0 / w0) by (apply Z.div_le_lower_bound; nia).
  replace (w0 <=? W) with true by lia.
  by replace (h0 <=? W * h0 / w0) with true by lia.
Qed.

Lemma wide_request_returns_source_size_witness :
  result (handle_image_conversion_job sample_client (natural_job 200)
            square_file)
  = Returned ((100, 100), ∅).
Proof.
  rewrite (wide_request_returns_source_size sample_client (natural_job 200)
             square_file (blank_image 100 100 ∅) 200);
    try reflexivity; by vm_compute.
Defined.

Lemma Qz_mul_div_lt (y w h bound : Z) :
  0 < h ->
  (Qz y * (Qz w / Qz h) < Qz bound)%Q <-> y * w < bound * h.
Proof.
  intros Hh. destruct h as [|p|p]; try lia.
  unfold Qz, inject_Z, Qdiv, Qinv, Qmult, Qlt. simpl. lia.
Qed.

Lemma Qz_mul_div_eq (y w h x : Z) :
  0 < h -> y * w = x * h -> (Qz y * (Qz w / Qz h) == Qz x)%Q.
Proof.
  intros Hh E. destruct h as [|p|p]; try lia.
  unfold Qz, inject_Z, Qdiv, Qinv, Qmult, Qeq. simpl. lia.
Qed.

Lemma round_aspect_floor (number : Q) (key : Z -> Q) :
  Qfloor number <= round_aspect number key.
Proof.
  unfold round_aspect. pose proof (Qfloor_le_Qceiling number).
  destruct (Qle_bool _ _); lia.
Qed.

Lemma round_aspect_integer (x : Z) (key : Z -> Q) (number : Q) :
  1 <= x -> (number == Qz x)%Q -> round_aspect number key = x.
Proof.
  intros Hx E. unfold round_aspect.
  rewrite (Qfloor_comp _ _ E), (Qceiling_comp _ _ E).
  unfold Qz. rewrite Qfloor_Z, Qceiling_Z. destruct (Qle_bool _ _); lia.
Qed.

(** What [thumbnail] does to an image wider than a box whose height was
    floored from the width, as line 208 computes it. *)
Lemma thumbnail_floored_box (w0 h0 W : Z) :
  0 < W -> W < w0 -> 0 < h0 -> 1 <= W * h0 / w0 ->
  exists a,
    result (thumbnail (w0, h0) (W, W * h0 / w0))
    = Returned (a, W * h0 / w0)
    /\ 1 <= a <= W
    /\ (W * h0 / w0) * w0 < (a + 1) * h0
    /\ ((W * h0) mod w0 = 0 -> a = W).
Proof.
  intros HW Hlt Hh HH. set (H := W * h0 / w0) in *.
  assert (Hfloor : w0 * H <= W * h0) by (apply Z.mul_div_le; lia).
  unfold thumbnail. rewrite result_bind. cbn [emit result snd].
  rewrite result_bind. unfold preserve_aspect_ratio.
  replace (w0 <=? W) with false by lia. cbn [andb].
  replace (h0 =? 0) with false by lia. replace (H =? 0) with false by lia.
  assert (EA : Qle_bool (Qz w0 / Qz h0) (Qz W / Qz H) = true).
  { apply Qle_bool_iff, Qz_div_le; lia. }
  rewrite EA. cbn [ret result snd].
  set (a := round_aspect _ _).
  assert (Ha1 : 1 <= a) by apply round_aspect_ge.
  assert (HaW : a <= W).
  { apply round_aspect_le; [lia|]. apply Qz_mul_div_le; lia. }
  assert (Hlow : H * w0 < (a + 1) * h0).
  { apply (Qz_mul_div_lt H w0 h0 (a + 1) Hh).
    eapply Qlt_le_trans; [apply Qlt_floor|].
    unfold Qz. rewrite <- Zle_Qle.
    pose proof (round_aspect_floor (Qz H * (Qz w0 / Qz h0))
                  (fun n => Qabs (Qz w0 / Qz h0 - Qz n / Qz H))) as Hfl.
    fold a in Hfl. unfold Qz in Hfl. lia. }
  exists a. split; [|split; [lia|split; [done|]]].
  - destruct (size_eqb (w0, h0) (a, H)) eqn:E.
    { apply size_eqb_eq in E. injection E as E1 _. lia. }
    apply resize_ok; [simpl; lia..|]. apply full_box_inside; simpl; lia.
  - intros Hmod. apply round_aspect_integer; [lia|].
    apply Qz_mul_div_eq; [done|].
    pose proof (Z.div_mod (W * h0) w0 ltac:(lia)) as Hdm.
    fold H in Hdm. lia.
Qed.

(** X7. A natural-ratio job that shrinks a proper image (requested width
    below the source width, resolved height [H] at least 1) returns an image
    of exactly the height [H]; its width is at most the requested [W], is
    not below what the source ratio gives for that height less one pixel
    ([H * w0 < (width + 1) * h0]), and is exactly [W] when [W * h0] is a
    multiple of [w0]. *)
Theorem shrinking_job_returns_resolved_height (self : BmaClient)
    (job : gmap string PyVal) (orig : File) (im : Image) (W : Z) :
  0 < W ->
  f_image orig = Some im ->
  job !! "width" = Some (PyInt W) ->
  job_aspect job (im_size (ImageOps.exif_transpose im)) None ->
  W < fst (im_size (ImageOps.exif_transpose im)) ->
  let w0 := fst (im_size (ImageOps.exif_transpose im)) in
  let h0 := snd (im_size (ImageOps.exif_transpose im)) in
  1 <= W * h0 / w0 ->
  exists a,
    result (handle_image_conversion_job self job orig)
    = Returned ((a, W * h0 / w0), im_exif (ImageOps.exif_transpose im))
    /\ 1 <= a <= W
    /\ (W * h0 / w0) * w0 < (a + 1) * h0
    /\ ((W * h0) mod w0 = 0 -> a = W).
Proof.
  intros HWpos Him HW Ha Hlt w0 h0 HH.
  rewrite (conversion_outcome self job orig im Him W None HW Ha).
  destruct Ha as (_ & _ & Hw & Hh). cbv zeta.
  unfold w0, h0 in *. clear w0 h0.
  destruct (im_size (ImageOps.exif_transpose im)) as [w0 h0].
  cbn [GeometryResolver fst snd] in *.
  destruct (thumbnail_floored_box w0 h0 W HWpos Hlt Hh HH)
    as (a & -> & Hrest).
  by exists a.
Qed.

Lemma shrinking_job_returns_resolved_height_witness :
  exists a,
    result (handle_image_conversion_job sample_client (natural_job 800)
              photo_file)
    = Returned ((a, 600), ∅)
    /\ 1 <= a <= 800
    /\ 600 * 4000 < (a + 1) * 3000
    /\ ((800 * 3000) mod 4000 = 0 -> a = 800).
Proof.
  destruct (shrinking_job_returns_resolved_height sample_client
              (natural_job 800) photo_file (blank_image 4000 3000 ∅) 800)
    as (a & Ha); try reflexivity; try (by vm_compute).
  exists a. exact Ha.
Defined.



(** ** Dispatch: one pipeline per job *)

Ltac classify_events :=
  repeat (apply Forall_cons_2);
  first [ by apply Forall_nil | left; eexists; reflexivity | right; exact I ].

Lemma conversion_events (self : BmaClient) (job : gmap string PyVal)
    (orig : File) (ev : event) :
  ev ∈ trace (handle_image_conversion_job self job orig) ->
  debug_record ev \/ pillow_event ev.
Proof.
  revert ev. apply Forall_forall.
  destruct (f_image orig) as [im|] eqn:Him.
  - rewrite (conversion_trace_any self job orig im Him).
    unfold conversion_prelude, desired_record, resize_call.
    destruct (result (calc_size _ _)) as [[ratio size]|e];
      cbn [app fst snd]; [|classify_events].
    destruct (result (resize_step _ _ _)), (ratio_truthy ratio);
      classify_events.
  - rewrite undecodable_file_raw by done. cbn [trace fst]. classify_events.
Qed.

(** X9. An EXIF extraction job is [get_exif] and nothing else: the events
    and the outcome are those of [get_exif] on the file, no call into
    Pillow is made, and neither a width nor a decodable image is needed. *)
Theorem extraction_job_runs_get_exif_only (self : BmaClient)
    (job : gmap string PyVal) (orig : File) :
  job !! "job_type" = Some (PyStr "ImageExifExtractionJob") ->
  trace (handle_job self job orig) = trace (get_exif self orig)
  /\ result (handle_job self job orig)
     = match result (get_exif self orig) with
       | Returned grouped => Returned (ExifResult grouped)
       | Raised e => Raised e
       end
  /\ (forall ev,
        ev ∈ trace (handle_job self job orig) -> ~ pillow_event ev).
Proof.
  intros Hjt.
  assert (E : handle_job self job orig
              = (g <- get_exif self orig ;; ret (ExifResult g))).
  { unfold handle_job. py_run. rewrite bool_decide_eq_false_2 by done.
    py_run. by rewrite bool_decide_eq_true_2. }
  rewrite E, trace_bind, result_bind.
  assert (Et : trace (get_exif self orig)
               ++ match result (get_exif self orig) with
                  | Returned a => trace (ret (ExifResult a))
                  | Raised _ => []
                  end = trace (get_exif self orig)).
  { destruct (result (get_exif self orig)); cbn; by rewrite app_nil_r. }
  rewrite Et. split; [done|]. split.
  - by destruct (result (get_exif self orig)).
  - intros ev. unfold get_exif. rewrite trace_bind.
    cbn [emit trace result fst snd app].
    intros [->|H]%elem_of_cons; [by intros []|].
    apply get_exif_loop_trace in H as [msg ->]. by intros [].
Qed.

Lemma extraction_job_runs_get_exif_only_witness :
  result (handle_job sample_client (typed_job "ImageExifExtractionJob")
            (tag_file thumbnail_tags))
  = match result (get_exif sample_client (tag_file thumbnail_tags)) with
    | Returned grouped => Returned (ExifResult grouped)
    | Raised e => Raised e
    end.
Proof.
  apply (extraction_job_runs_get_exif_only sample_client
           (typed_job "ImageExifExtractionJob") (tag_file thumbnail_tags)).
  reflexivity.
Defined.

(** X10. A conversion job is [handle_image_conversion_job] and nothing
    else: its events and outcome are those of the conversion, every event
    is a debug record or a call into Pillow, and exifread is never asked to
    process the file. *)
Theorem conversion_job_runs_conversion_only (self : BmaClient)
    (job : gmap string PyVal) (orig : File) :
  job !! "job_type" = Some (PyStr "ImageConversionJob") ->
  trace (handle_job self job orig)
  = trace (handle_image_conversion_job self job orig)
  /\ result (handle_job self job orig)
     = match result (handle_image_conversion_job self job orig) with
       | Returned r => Returned (ConversionResult (fst r) (snd r))
       | Raised e => Raised e
       end
  /\ (forall ev,
        ev ∈ trace (handle_job self job orig) ->
        (debug_record ev \/ pillow_event ev)
        /\ forall path, ev <> ProcessFile path).
Proof.
  intros Hjt.
  assert (E : handle_job self job orig
              = (r <- handle_image_conversion_job self job orig ;;
                 ret (ConversionResult (fst r) (snd r)))).
  { unfold handle_job. py_run. by rewrite bool_decide_eq_true_2. }
  rewrite E, trace_bind, result_bind.
  set (m := handle_image_conversion_job self job orig).
  assert (Et : trace m
               ++ match result m with
                  | Returned a => trace (ret (ConversionResult (fst a) (snd a)))
                  | Raised _ => []
                  end = trace m).
  { destruct (result m); cbn; by rewrite app_nil_r. }
  rewrite Et. split; [done|]. split.
  - by destruct (result m).
  - intros ev Hev. apply conversion_events in Hev as Hkind.
    split; [done|]. intros path ->.
    destruct Hkind as [[msg [=]]|[]].
Qed.

Lemma conversion_job_runs_conversion_only_witness :
  result (handle_job sample_client widescreen_job photo_file)
  = match result (handle_image_conversion_job sample_client widescreen_job
                    photo_file) with
    | Returned r => Returned (ConversionResult (fst r) (snd r))
    | Raised e => Raised e
    end.
Proof.
  apply (conversion_job_runs_conversion_only sample_client widescreen_job
           photo_file).
  reflexivity.
Defined.

(** ** Grouping EXIF tags: shape of the output *)

Lemma elem_of_tag_slots (tags : list (string * IfdTag)) (g k : string) :
  (g, k) ∈ tag_slots tags
  <-> exists tag value,
        (tag, value) ∈ tags /\ skipped tag = false /\ slot tag = Some (g, k).
Proof.
  unfold tag_slots. rewrite list_elem_of_omap. split.
  - intros ([tag value] & Hin & H). cbn [fst] in H.
    destruct (skipped tag) eqn:Es; [done|]. eauto.
  - intros (tag & value & Hin & Hs & Hslot). exists (tag, value).
    split; [done|]. cbn [fst]. by rewrite Hs.
Qed.

Lemma tag_slots_cons (tag : string) (value : IfdTag)
    (rest : list (string * IfdTag)) :
  tag_slots ((tag, value) :: rest)
  = if skipped tag then tag_slots rest
    else match slot tag with
         | Some s => s :: tag_slots rest
         | None => tag_slots rest
         end.
Proof. unfold tag_slots. cbn. by destruct (skipped tag), (slot tag). Qed.

Lemma well_formed_cons (tag : string) (value : IfdTag)
    (rest : list (string * IfdTag)) :
  well_formed ((tag, value) :: rest) = true
  <-> (skipped tag = true \/ is_Some (slot tag)) /\ well_formed rest = true.
Proof.
  cbn [well_formed forallb fst]. rewrite andb_true_iff, orb_true_iff.
  by rewrite bool_decide_eq_true.
Qed.

(** Every key that is not skipped has its slot filled. *)
Lemma group_tags_fills_slots (tags : list (string * IfdTag))
    (grouped : gmap string (gmap string string)) (g k : string) :
  well_formed tags = true ->
  (g, k) ∈ tag_slots tags ->
  is_Some (entry (group_tags tags grouped) g k).
Proof.
  revert grouped. induction tags as [|[tag value] rest IH]; intros grouped.
  - by intros _ ?%elem_of_nil.
  - intros [Hhd Hwf]%well_formed_cons. rewrite tag_slots_cons.
    cbn [group_tags]. destruct (skipped tag) eqn:Es; [by apply IH|].
    destruct Hhd as [|[[g0 k0] Hslot]]; [done|]. rewrite Hslot.
    intros [[= -> ->]|Hin]%elem_of_cons; [|by apply IH].
    apply entry_group_tags_stays. rewrite entry_store.
    rewrite decide_True by done. eauto.
Qed.

Lemma store_groups_nonempty (g k s : string)
    (grouped : gmap string (gmap string string)) :
  (forall g' inner, grouped !! g' = Some inner -> inner <> ∅) ->
  forall g' inner, store g k s grouped !! g' = Some inner -> inner <> ∅.
Proof.
  intros H g' inner. unfold store. destruct (decide (g = g')) as [->|Hne].
  - rewrite lookup_insert_eq. intros [= <-]. apply insert_non_empty.
  - rewrite lookup_insert_ne by done. apply H.
Qed.

Lemma group_tags_groups_nonempty (tags : list (string * IfdTag))
    (grouped : gmap string (gmap string string)) :
  (forall g inner, grouped !! g = Some inner -> inner <> ∅) ->
  forall g inner, group_tags tags grouped !! g = Some inner -> inner <> ∅.
Proof.
  revert grouped. induction tags as [|[tag value] rest IH]; intros grouped H.
  - done.
  - cbn [group_tags]. destruct (skipped tag); [by apply IH|].
    destruct (slot tag) as [[g0 k0]|]; [|done].
    apply IH. by apply store_groups_nonempty.
Qed.

(** X11. The shape of what [get_exif] returns: [grouped[g][k]] exists
    exactly when some key that is not skipped has first piece [g] and last
    piece [k]; a group exists exactly when some such key names it; and no
    group is ever empty. *)
Theorem exif_output_has_exactly_the_slots (self : BmaClient) (fname : File)
    (out : gmap string (gmap string string)) :
  result (get_exif self fname) = Returned out ->
  (forall g k,
     is_Some (entry out g k) <-> (g, k) ∈ tag_slots (f_tags fname))
  /\ (forall g,
        is_Some (out !! g) <-> exists k, (g, k) ∈ tag_slots (f_tags fname))
  /\ (forall g inner, out !! g = Some inner -> inner <> ∅).
Proof.
  rewrite get_exif_result.
  destruct (well_formed (f_tags fname)) eqn:Hwf; [|done]. intros [= <-].
  assert (Hslots : forall g k,
            is_Some (entry (group_tags (f_tags fname) ∅) g k)
            <-> (g, k) ∈ tag_slots (f_tags fname)).
  { intros g k. split.
    - intros [s Hs]. apply elem_of_tag_slots.
      apply group_tags_entry in Hs as [Hs|(tag & value & ? & ? & ? & _)].
      + by rewrite entry_empty in Hs.
      + eauto.
    - by apply group_tags_fills_slots. }
  assert (Hne : forall g inner,
            group_tags (f_tags fname) ∅ !! g = Some inner -> inner <> ∅).
  { apply group_tags_groups_nonempty. intros g inner.
    by rewrite lookup_empty. }
  split; [done|]. split; [|done].
  intros g. split.
  - intros [inner Hg]. destruct (map_choose inner (Hne g inner Hg))
      as (k & s & Hk).
    exists k. apply Hslots. exists s. unfold entry. by rewrite Hg.
  - intros [k Hk]. apply Hslots in Hk as [s Hs]. unfold entry in Hs.
    destruct (group_tags (f_tags fname) ∅ !! g); [eauto|done].
Qed.

Lemma exif_output_has_exactly_the_slots_witness :
  is_Some (entry (group_tags makernote_tags ∅) "EXIF" "ExposureTime")
  /\ is_Some (group_tags makernote_tags ∅ !! "MakerNote").
Proof.
  destruct (exif_output_has_exactly_the_slots sample_client
              (tag_file makernote_tags) (group_tags makernote_tags ∅))
    as (Hentry & Hgroup & _); [by rewrite get_exif_result|].
  split.
  - apply Hentry.
    apply (bool_decide_eq_true_1
             (("EXIF", "ExposureTime") ∈ tag_slots makernote_tags)).
    by vm_compute.
  - apply Hgroup. exists "0x0001".
    apply (bool_decide_eq_true_1
             (("MakerNote", "0x0001") ∈ tag_slots makernote_tags)).
    by vm_compute.
Defined.

(** ** Grouping EXIF tags: counting and order *)

Lemma group_tags_count_distinct (tags : list (string * IfdTag))
    (grouped : gmap string (gmap string string)) :
  well_formed tags = true ->
  NoDup (tag_slots tags) ->
  (forall g k, (g, k) ∈ tag_slots tags -> entry grouped g k = None) ->
  entries (group_tags tags grouped) = (entries grouped + unskipped tags)%nat.
Proof.
  revert grouped. induction tags as [|[tag value] rest IH]; intros grouped.
  - intros _ _ _. cbn. lia.
  - intros [Hhd Hwf]%well_formed_cons. rewrite tag_slots_cons, unskipped_cons.
    cbn [group_tags]. destruct (skipped tag) eqn:Es; [by apply IH|].
    destruct Hhd as [|[[g0 k0] Hslot]]; [done|]. rewrite Hslot.
    intros [Hnotin Hnd]%NoDup_cons Hfree.
    rewrite IH; [|done|done|].
    + rewrite entries_store, (Hfree g0 k0) by apply list_elem_of_here. lia.
    + intros g k Hin. rewrite entry_store.
      rewrite decide_False by (intros [= -> ->]; done).
      apply Hfree. by apply list_elem_of_further.
Qed.

(** X12. When no two keys that are not skipped share a slot, nothing is
    lost: the output has exactly one entry per key that is not skipped. *)
Theorem distinct_slots_lose_nothing (self : BmaClient) (fname : File)
    (out : gmap string (gmap string string)) :
  NoDup (tag_slots (f_tags fname)) ->
  result (get_exif self fname) = Returned out ->
  entries out = unskipped (f_tags fname).
Proof.
  intros Hnd. rewrite get_exif_result.
  destruct (well_formed (f_tags fname)) eqn:Hwf; [|done]. intros [= <-].
  rewrite group_tags_count_distinct; [done..|].
  intros g k _. apply entry_empty.
Qed.

Lemma distinct_slots_lose_nothing_witness :
  entries (group_tags makernote_tags ∅) = 2%nat.
Proof.
  apply (distinct_slots_lose_nothing sample_client (tag_file makernote_tags)).
  - apply (bool_decide_eq_true_1 (NoDup (tag_slots makernote_tags))).
    by vm_compute.
  - by rewrite get_exif_result.
Defined.

(** ** Grouping EXIF tags: order of the keys *)

Lemma store_commute (g k s g' k' s' : string)
    (grouped : gmap string (gmap string string)) :
  (g, k) <> (g', k') ->
  store g k s (store g' k' s' grouped) = store g' k' s' (store g k s grouped).
Proof.
  intros Hne. unfold store. destruct (decide (g = g')) as [->|Hg].
  - rewrite !lookup_insert_eq. cbn [default]. rewrite !insert_insert_eq.
    f_equal. apply insert_insert_ne. congruence.
  - rewrite !lookup_insert_ne by done. by apply insert_insert_ne.
Qed.

Lemma well_formed_Permutation (tags1 tags2 : list (string * IfdTag)) :
  tags1 ≡ₚ tags2 -> well_formed tags1 = well_formed tags2.
Proof.
  unfold well_formed.
  induction 1 as [|x l1 l2 _ IH|x y l|l1 l2 l3 _ IH12 _ IH23]; cbn [forallb].
  - done.
  - by rewrite IH.
  - by rewrite !andb_assoc, (andb_comm (_ || _) (_ || _)).
  - congruence.
Qed.

Lemma tag_slots_Permutation (tags1 tags2 : list (string * IfdTag)) :
  tags1 ≡ₚ tags2 -> tag_slots tags1 ≡ₚ tag_slots tags2.
Proof. intros Hp. unfold tag_slots. by rewrite Hp. Qed.

Lemma group_tags_Permutation (tags1 tags2 : list (string * IfdTag)) :
  tags1 ≡ₚ tags2 ->
  well_formed tags1 = true ->
  NoDup (tag_slots tags1) ->
  forall grouped, group_tags tags1 grouped = group_tags tags2 grouped.
Proof.
  induction 1 as [|[tag value] l1 l2 Hp IH|[t1 v1] [t2 v2] l
                  |l1 l2 l3 H12 IH12 H23 IH23].
  - done.
  - intros [_ Hwf]%well_formed_cons. rewrite tag_slots_cons.
    intros Hnd grouped. cbn [group_tags]. destruct (skipped tag).
    + by apply IH.
    + destruct (slot tag) as [[g k]|]; [|done].
      apply IH; [done|]. by apply NoDup_cons in Hnd as [_ ?].
  - intros [Hy [Hx _]%well_formed_cons]%well_formed_cons.
    rewrite !tag_slots_cons. intros Hnd grouped. cbn [group_tags].
    destruct (skipped t1) eqn:E1, (skipped t2) eqn:E2; try done.
    destruct Hx as [|[[g1 k1] H1]]; [done|].
    destruct Hy as [|[[g2 k2] H2]]; [done|].
    rewrite H1, H2 in *.
    rewrite store_commute; [done|]. intros [= -> ->].
    apply NoDup_cons in Hnd as [Hnotin _]. apply Hnotin, list_elem_of_here.
  - intros Hwf Hnd grouped. rewrite IH12 by done. apply IH23.
    + by rewrite <- (well_formed_Permutation _ _ H12).
    + by rewrite <- (tag_slots_Permutation _ _ H12).
Qed.


(** X13. When no two keys that are not skipped share a slot, the order in
    which exifread yields the keys does not matter: two files with the same
    tags in a different order give the same outcome, the same dictionary or
    the same exception. *)
Theorem exif_output_order_independent (self : BmaClient) (f1 f2 : File) :
  f_tags f1 ≡ₚ f_tags f2 ->
  NoDup (tag_slots (f_tags f1)) ->
  result (get_exif self f1) = result (get_exif self f2).
Proof.
  intros Hp Hnd. rewrite !get_exif_result.
  rewrite <- (well_formed_Permutation _ _ Hp).
  destruct (well_formed (f_tags f1)) eqn:Hwf; [|done].
  f_equal. by apply group_tags_Permutation.
Qed.

Lemma exif_output_order_independent_witness :
  result (get_exif sample_client (tag_file makernote_tags))
  = result (get_exif sample_client (tag_file (reverse makernote_tags))).
Proof.
  apply exif_output_order_independent.
  - symmetry. apply reverse_Permutation.
  - apply (bool_decide_eq_true_1 (NoDup (tag_slots makernote_tags))).
    by vm_compute.
Defined.

(** ** Keys of more than two pieces *)

Lemma split_on_app (sep : ascii) (a b : string) :
  split_on sep (a +:+ String sep b) = split_on sep a ++ split_on sep b.
Proof.
  induction a as [|c a IH]; simpl.
  - by rewrite Ascii.eqb_refl.
  - destruct (Ascii.eqb c sep); [by rewrite IH|].
    rewrite IH. pose proof (split_on_nonempty sep a).
    by destruct (split_on sep a).
Qed.

Lemma last_split_on_app (sep : ascii) (a b : string) :
  last (split_on sep (a +:+ String sep b)) = last (split_on sep b).
Proof.
  rewrite split_on_app. pose proof (split_on_nonempty sep b) as Hb.
  destruct (split_on sep b) as [|p r] using rev_ind; [done|].
  by rewrite app_assoc, !last_snoc.
Qed.

Lemma slot_composed_key (g m t : string) :
  has_space g = false -> has_space t = false ->
  slot (composed_key g m t) = Some (g, t).
Proof.
  intros Hg Ht. unfold slot, composed_key.
  change (g +:+ " " +:+ m +:+ " " +:+ t)
    with (g +:+ String " " (m +:+ String " " t)).
  rewrite split_on_app, (split_on_no_space g Hg). cbn [app].
  by rewrite last_split_on_app, (split_on_no_space t Ht).
Qed.

Lemma has_space_not_skipped (tag : string) :
  has_space tag = true -> skipped tag = false.
Proof.
  intros Hs. apply not_skipped. intros Hin.
  unfold SKIP_EXIF_TAGS in Hin.
  repeat (apply elem_of_cons in Hin as [->|Hin]; [done|]).
  by apply elem_of_nil in Hin.
Qed.

Lemma has_space_app (a b : string) :
  has_space (a +:+ String " " b) = true.
Proof. induction a as [|c a IH]; simpl; [done|]. by rewrite IH, orb_true_r. Qed.

Lemma store_empty (g t s : string) : store g t s ∅ = single_entry g t s.
Proof.
  unfold store, single_entry. rewrite lookup_empty. cbn.
  by rewrite !insert_empty.
Qed.

Lemma store_single_entry (g t s s' : string) :
  store g t s' (single_entry g t s) = single_entry g t s'.
Proof.
  unfold store, single_entry. rewrite lookup_singleton_eq. cbn.
  by rewrite !insert_singleton_eq.
Qed.

(** X14. Only the first and the last piece of a key count. A key made of a
    group, any middle part and a tag is filed under [grouped[g][t]]; the
    middle is dropped and the key is never on the skip list. Two keys that
    differ in the middle only therefore share a slot, and of their values
    the output keeps the later one alone. *)
Theorem middle_pieces_are_dropped (self : BmaClient) (g m m' t : string)
    (value value' : IfdTag) :
  has_space g = false -> has_space t = false ->
  result (get_exif self (tag_file [(composed_key g m t, value)]))
  = Returned (single_entry g t (printable value))
  /\ result (get_exif self (tag_file [(composed_key g m t, value);
                                      (composed_key g m' t, value')]))
     = Returned (single_entry g t (printable value')).
Proof.
  intros Hg Ht.
  assert (Hskip : forall x, skipped (composed_key g x t) = false).
  { intros x. apply has_space_not_skipped, has_space_app. }
  pose proof (fun x => slot_composed_key g x t Hg Ht) as Hslot.
  rewrite !get_exif_result. unfold well_formed, tag_file.
  cbn [f_tags forallb fst group_tags]. rewrite !Hskip, !Hslot.
  rewrite !bool_decide_eq_true_2 by eauto. cbn [orb andb].
  by rewrite store_empty, store_single_entry.
Qed.

Lemma middle_pieces_are_dropped_witness :
  result (get_exif sample_client
            (tag_file [(composed_key "MakerNote" "Tag" "0x0001", int_tag 7)]))
  = Returned (single_entry "MakerNote" "0x0001" "7")
  /\ result (get_exif sample_client
               (tag_file [(composed_key "MakerNote" "Tag" "0x0001", int_tag 7);
                          (composed_key "MakerNote" "Unknown" "0x0001",
                           int_tag 9)]))
     = Returned (single_entry "MakerNote" "0x0001" "9").
Proof.
  apply (middle_pieces_are_dropped sample_client "MakerNote" "Tag" "Unknown"
           "0x0001" (int_tag 7) (int_tag 9)); reflexivity.
Defined.

(** * Properties of [upload_file] *)

(** ** The extension test *)

Lemma check_extension_listed (extension : string)
    (values : list (list string)) :
  Exists (fun extensions => lower extension ∈ extensions) values ->
  check_extension extension values
  = logger_debug ("Extension " +:+ extension +:+ " is supported...").
Proof.
  induction values as [|extensions rest IH]; intros Hex.
  - by apply Exists_nil in Hex.
  - cbn [check_extension]. case_bool_decide as Hin; [done|].
    apply Exists_cons in Hex as [?|?]; [done|by apply IH].
Qed.

Lemma check_extension_unlisted (extension : string)
    (values : list (list string)) :
  ~ Exists (fun extensions => lower extension ∈ extensions) values ->
  check_extension extension values = raise ValueError.
Proof.
  induction values as [|extensions rest IH]; intros Hex; [done|].
  cbn [check_extension]. case_bool_decide as Hin.
  - destruct Hex. by apply Exists_cons_hd.
  - apply IH. intros ?. destruct Hex. by apply Exists_cons_tl.
Qed.

Lemma images_of_Some (settings : Settings)
    (images : list (string * list string)) :
  images_of settings = Some images ->
  exists filetypes,
    settings !! "filetypes" = Some filetypes
    /\ filetypes !! "images" = Some images.
Proof.
  unfold images_of. destruct (settings !! "filetypes") as [filetypes|]; [|done].
  intros ?. by exists filetypes.
Qed.

Lemma images_of_image_settings (images : list (string * list string)) :
  images_of (image_settings images) = Some images.
Proof.
  reflexivity.
Qed.

Lemma exif_transpose_size (im : Image) :
  im_size (ImageOps.exif_transpose im) = displayed_size im.
Proof.
  unfold ImageOps.exif_transpose, displayed_size.
  destruct (orientation_method _) as [method|]; [|done].
  unfold Image_transpose. destruct (im_size im) as [w h]. cbn.
  by destruct (swaps_axes method).
Qed.

Section UploadRun.

Context {Response Json : Type}.
Context (client_post : UploadRequest -> Py Response).
Context (Response_json : Response -> Py Json).
Context (self : BmaClient) (settings : Settings) (path : File).
Context (attribution file_license : string).
Context (images : list (string * list string)).
Hypothesis configured : images_of settings = Some images.

Local Abbreviation run :=
  (upload_file client_post Response_json self settings path
     attribution file_license).

Lemma upload_unlisted :
  ~ listed images (lower (extension_of path)) -> run = raise ValueError.
Proof.
  intros Hno. destruct (images_of_Some _ _ configured) as (ft & Hft & Him).
  unfold upload_file. cbv zeta. fold (extension_of path). py_run.
  by rewrite (check_extension_unlisted _ _ Hno).
Qed.

Lemma upload_listed_undecodable :
  listed images (lower (extension_of path)) ->
  f_image path = None ->
  run = ([ Log DEBUG ("Extension " +:+ extension_of path
                      +:+ " is supported...");
           ImageOpen (f_path path) ],
         Raised UnidentifiedImageError).
Proof.
  intros Hyes Hnone.
  destruct (images_of_Some _ _ configured) as (ft & Hft & Him).
  unfold upload_file. cbv zeta. fold (extension_of path). py_run.
  rewrite (check_extension_listed _ _ Hyes).
  unfold Image_open. by rewrite Hnone.
Qed.

Lemma upload_listed_decodable (im : Image) :
  listed images (lower (extension_of path)) ->
  f_image path = Some im ->
  run = bind (upload_prelude path im, Returned tt) (fun _ =>
          r <- client_post (upload_request self path attribution
                              file_license (displayed_size im)) ;;
          Response_json r).
Proof.
  intros Hyes Hsome.
  destruct (images_of_Some _ _ configured) as (ft & Hft & Him).
  unfold upload_file. cbv zeta. fold (extension_of path). py_run.
  rewrite (check_extension_listed _ _ Hyes).
  unfold Image_open. rewrite Hsome.
  cbv beta iota delta [bind emit ret logger_debug].
  rewrite !exif_transpose_size.
  unfold upload_request, upload_prelude.
  destruct (displayed_size im) as [w h]. cbn [fst snd app].
  destruct (client_post _) as [t [r|e]]; [|done].
  by destruct (Response_json r).
Qed.

Lemma upload_refused_iff :
  refused run <-> ~ listed images (lower (extension_of path)).
Proof.
  split.
  - intros Hrun Hyes. unfold refused in Hrun.
    destruct (f_image path) as [im|] eqn:Him.
    + rewrite (upload_listed_decodable im Hyes Him) in Hrun.
      apply (f_equal trace) in Hrun. by rewrite trace_bind in Hrun.
    + by rewrite (upload_listed_undecodable Hyes Him) in Hrun.
  - apply upload_unlisted.
Qed.

End UploadRun.

(** ** Letter case *)

Lemma ascii_lower_dot (c : ascii) :
  Ascii.eqb (ascii_lower c) "."%char = Ascii.eqb c "."%char.
Proof. by destruct c as [[] [] [] [] [] [] [] []]. Qed.

Lemma ascii_lower_idemp (c : ascii) :
  ascii_lower (ascii_lower c) = ascii_lower c.
Proof. by destruct c as [[] [] [] [] [] [] [] []]. Qed.

Lemma lower_idemp (s : string) : lower (lower s) = lower s.
Proof.
  induction s as [|c s IH]; [done|]. cbn [lower].
  by rewrite ascii_lower_idemp, IH.
Qed.

Lemma length_lower (s : string) : String.length (lower s) = String.length s.
Proof. induction s as [|c s IH]; [done|]. cbn [lower String.length]. by rewrite IH. Qed.

Lemma from_last_dot_lower (s : string) :
  from_last_dot (lower s) = lower <$> from_last_dot s.
Proof.
  induction s as [|c s IH]; [done|]. cbn [lower from_last_dot].
  rewrite IH, ascii_lower_dot. destruct (from_last_dot s); [done|].
  cbn. by destruct (Ascii.eqb c ".").
Qed.

Lemma Path_suffix_lower (name : string) :
  Path_suffix (lower name) = lower (Path_suffix name).
Proof.
  destruct name as [|c rest]; [done|]. cbn [lower Path_suffix].
  rewrite from_last_dot_lower. destruct (from_last_dot rest) as [s|]; [|done].
  cbn [fmap option_fmap option_map]. rewrite length_lower.
  by destruct (1 <? String.length s)%nat.
Qed.

Lemma drop_first_lower (s : string) :
  drop_first (lower s) = lower (drop_first s).
Proof. by destruct s. Qed.

Lemma extension_lower (p1 p2 : File) :
  lower (Path_name (f_path p1)) = lower (Path_name (f_path p2)) ->
  lower (extension_of p1) = lower (extension_of p2).
Proof.
  intros Heq. unfold extension_of.
  by rewrite <- !drop_first_lower, <- !Path_suffix_lower, Heq.
Qed.

Lemma listed_lowercase_entries (images : list (string * list string))
    (e : string) :
  listed (lowercase_entries images) (lower e) <-> listed images (lower e).
Proof.
  unfold listed, lowercase_entries.
  induction images as [|[kind extensions] rest IH]; [done|].
  cbn [map fst snd]. rewrite !Exists_cons, IH.
  rewrite list_elem_of_filter. pose proof (lower_idemp e). tauto.
Qed.

Lemma from_last_dot_None (s : string) :
  has_dot s = false -> from_last_dot s = None.
Proof.
  induction s as [|c s IH]; [done|]. cbn [has_dot from_last_dot].
  intros [Hc Hs]%orb_false_iff. by rewrite (IH Hs), Hc.
Qed.

Lemma orientation_method_swaps (o : Z) :
  match orientation_method o with
  | Some method => swaps_axes method
  | None => false
  end = bool_decide (5 <= o <= 8).
Proof.
  destruct o as [|p|p]; [done| |done].
  do 4 (destruct p as [p|p|]; try done).
Qed.

Lemma displayed_size_oriented (im : Image) (w h : Z) :
  im_size im = (w, h) ->
  displayed_size im = oriented_size (default 1 (im_exif im !! ORIENTATION)) w h.
Proof.
  intros Hsize. unfold displayed_size, oriented_size.
  rewrite <- orientation_method_swaps, Hsize.
  by destruct (orientation_method _).
Qed.

(** ** What [upload_file] does *)

(** X15. Nothing is sent unless the extension is listed and Pillow opens
    the file. With the settings in place, [upload_file] ends in
    [ValueError] with nothing logged, opened or sent exactly when no image
    type lists the lowered extension of the file name; and a file with a
    listed extension that Pillow cannot identify ends the upload at
    [Image.open], whatever the HTTP client would have answered. *)
Theorem upload_needs_listed_extension {Response Json : Type}
    (client_post : UploadRequest -> Py Response)
    (Response_json : Response -> Py Json)
    (self : BmaClient) (settings : Settings) (path : File)
    (attribution file_license : string)
    (images : list (string * list string)) :
  images_of settings = Some images ->
  (refused (upload_file client_post Response_json self settings path
              attribution file_license)
   <-> ~ listed images (lower (extension_of path)))
  /\ (listed images (lower (extension_of path)) ->
      f_image path = None ->
      upload_file client_post Response_json self settings path
        attribution file_license
      = ([ Log DEBUG ("Extension " +:+ extension_of path
                      +:+ " is supported...");
           ImageOpen (f_path path) ],
         Raised UnidentifiedImageError)).
Proof.
  intros configured. split.
  - by apply upload_refused_iff.
  - by apply upload_listed_undecodable.
Qed.

Lemma upload_needs_listed_extension_witness :
  ~ refused (upload_file echo_post echo_json sample_client jpeg_png_settings
               (file_at capitals_path None) "me" "CC-BY")
  /\ upload_file echo_post echo_json sample_client jpeg_png_settings
       (file_at capitals_path None) "me" "CC-BY"
     = ([ Log DEBUG "Extension JPG is supported...";
          ImageOpen capitals_path ],
        Raised UnidentifiedImageError).
Proof.
  destruct (upload_needs_listed_extension echo_post echo_json sample_client
              jpeg_png_settings (file_at capitals_path None) "me" "CC-BY"
              [ ("jpeg", ["jpg"; "jpe"; "jpeg"]); ("png", ["png"]) ]
              eq_refl) as [Hiff Hopen].
  assert (Hlisted : listed [ ("jpeg", ["jpg"; "jpe"; "jpeg"]);
                             ("png", ["png"]) ]
                      (lower (extension_of (file_at capitals_path None)))).
  { apply Exists_cons_hd. apply list_elem_of_here. }
  split.
  - intros Href. by apply Hiff in Href.
  - by apply Hopen.
Defined.

(** X16. The extension test ignores the letter case of the file name: two
    paths whose names differ in the case of ASCII letters only are both
    refused or both let through. *)
Theorem extension_case_is_ignored {Response Json : Type}
    (client_post : UploadRequest -> Py Response)
    (Response_json : Response -> Py Json)
    (self : BmaClient) (settings : Settings) (p1 p2 : File)
    (attribution file_license : string)
    (images : list (string * list string)) :
  images_of settings = Some images ->
  lower (Path_name (f_path p1)) = lower (Path_name (f_path p2)) ->
  refused (upload_file client_post Response_json self settings p1
             attribution file_license)
  <-> refused (upload_file client_post Response_json self settings p2
                 attribution file_license).
Proof.
  intros configured Hnames.
  rewrite !(upload_refused_iff _ _ _ _ _ _ _ _ configured).
  by rewrite (extension_lower _ _ Hnames).
Qed.

Lemma extension_case_is_ignored_witness :
  refused (upload_file echo_post echo_json sample_client jpeg_png_settings
             (file_at "scan.TIFF" None) "me" "CC-BY")
  <-> refused (upload_file echo_post echo_json sample_client jpeg_png_settings
                 (file_at "Scan.tiff" None) "me" "CC-BY").
Proof.
  apply (extension_case_is_ignored echo_post echo_json sample_client
           jpeg_png_settings (file_at "scan.TIFF" None)
           (file_at "Scan.tiff" None) "me" "CC-BY"
           [ ("jpeg", ["jpg"; "jpe"; "jpeg"]); ("png", ["png"]) ]);
    reflexivity.
Defined.

(** X17. The settings side of the test is not lowered: an extension that
    the server lists with a capital letter in it never matches any file.
    Removing every such entry from the settings changes nothing, for any
    file and any client. *)
Theorem capital_entries_never_match {Response Json : Type}
    (client_post : UploadRequest -> Py Response)
    (Response_json : Response -> Py Json)
    (self : BmaClient) (settings settings' : Settings) (path : File)
    (attribution file_license : string)
    (images : list (string * list string)) :
  images_of settings = Some images ->
  images_of settings' = Some (lowercase_entries images) ->
  upload_file client_post Response_json self settings' path
    attribution file_license
  = upload_file client_post Response_json self settings path
      attribution file_license.
Proof.
  intros configured configured'.
  destruct (decide (listed images (lower (extension_of path))))
    as [Hyes|Hno].
  - assert (Hyes' := proj2 (listed_lowercase_entries images _) Hyes).
    destruct (f_image path) as [im|] eqn:Him.
    + by rewrite (upload_listed_decodable _ _ _ _ _ _ _ _ configured im),
        (upload_listed_decodable _ _ _ _ _ _ _ _ configured' im).
    + by rewrite (upload_listed_undecodable _ _ _ _ _ _ _ _ configured),
        (upload_listed_undecodable _ _ _ _ _ _ _ _ configured').
  - assert (Hno' : ~ listed (lowercase_entries images)
                       (lower (extension_of path))).
    { by rewrite listed_lowercase_entries. }
    by rewrite (upload_unlisted _ _ _ _ _ _ _ _ configured),
      (upload_unlisted _ _ _ _ _ _ _ _ configured').
Qed.

Lemma capital_entries_never_match_witness :
  upload_file echo_post echo_json sample_client
    (image_settings [ ("jpeg", []); ("png", ["png"]) ])
    (file_at capitals_path (Some sideways_photo)) "me" "CC-BY"
  = upload_file echo_post echo_json sample_client capitals_settings
      (file_at capitals_path (Some sideways_photo)) "me" "CC-BY".
Proof.
  apply (capital_entries_never_match echo_post echo_json sample_client
           capitals_settings (image_settings [ ("jpeg", []); ("png", ["png"]) ])
           (file_at capitals_path (Some sideways_photo)) "me" "CC-BY"
           [ ("jpeg", ["JPG"]); ("png", ["png"]) ]); reflexivity.
Defined.

(** X18. The width and height sent with an upload are those of the image
    as it is displayed, not as it is stored: for an image stored as [w] by
    [h], the metadata says [h] by [w] when the orientation tag is 5, 6, 7
    or 8, and [w] by [h] otherwise. The file goes out under the last part
    of its path, and what comes back is whatever [r.json()] gives for the
    response. *)
Theorem upload_sends_displayed_size {Response Json : Type}
    (client_post : UploadRequest -> Py Response)
    (Response_json : Response -> Py Json)
    (self : BmaClient) (settings : Settings) (path : File)
    (attribution file_license : string)
    (images : list (string * list string)) (im : Image) (w h : Z) :
  images_of settings = Some images ->
  listed images (lower (extension_of path)) ->
  f_image path = Some im ->
  im_size im = (w, h) ->
  upload_file client_post Response_json self settings path
    attribution file_license
  = bind (upload_prelude path im, Returned tt) (fun _ =>
      r <- client_post
             (upload_request self path attribution file_license
                (oriented_size (default 1 (im_exif im !! ORIENTATION)) w h)) ;;
      Response_json r).
Proof.
  intros configured Hyes Him Hsize.
  rewrite (upload_listed_decodable _ _ _ _ _ _ _ _ configured im Hyes Him).
  by rewrite (displayed_size_oriented im w h Hsize).
Qed.

Lemma upload_sends_displayed_size_witness :
  result (upload_file echo_post echo_json sample_client jpeg_png_settings
            (file_at capitals_path (Some sideways_photo)) "me" "CC-BY")
  = Returned {| up_url := "https://media.bornhack.dk/api/v1/json/files/upload/";
                up_attribution := "me";
                up_license := "CC-BY";
                up_width := 3000;
                up_height := 4000;
                up_filename := "IMG_0001.JPG" |}.
Proof.
  rewrite (upload_sends_displayed_size echo_post echo_json sample_client
             jpeg_png_settings (file_at capitals_path (Some sideways_photo))
             "me" "CC-BY"
             [ ("jpeg", ["jpg"; "jpe"; "jpeg"]); ("png", ["png"]) ]
             sideways_photo 4000 3000).
  - reflexivity.
  - reflexivity.
  - apply Exists_cons_hd. apply list_elem_of_here.
  - reflexivity.
  - reflexivity.
Defined.

(** X19. A file name without an extension cannot be uploaded: when the
    name has no dot after its first character (as in [README] or
    [.bashrc]) the extension is empty, and the upload is refused unless
    some image type lists the empty string. *)
Theorem name_without_extension_refused {Response Json : Type}
    (client_post : UploadRequest -> Py Response)
    (Response_json : Response -> Py Json)
    (self : BmaClient) (settings : Settings) (path : File)
    (attribution file_license : string)
    (images : list (string * list string)) :
  images_of settings = Some images ->
  has_dot (drop_first (Path_name (f_path path))) = false ->
  ~ listed images "" ->
  refused (upload_file client_post Response_json self settings path
             attribution file_license).
Proof.
  intros configured Hdot Hno.
  apply (upload_refused_iff _ _ _ _ _ _ _ _ configured).
  unfold extension_of, Path_suffix.
  destruct (Path_name (f_path path)) as [|c rest]; [done|].
  cbn [drop_first] in Hdot. by rewrite (from_last_dot_None rest Hdot).
Qed.

Lemma name_without_extension_refused_witness :
  refused (upload_file echo_post echo_json sample_client jpeg_png_settings
             (file_at "/home/me/.bashrc" None) "me" "CC-BY").
Proof.
  apply (name_without_extension_refused echo_post echo_json sample_client
           jpeg_png_settings (file_at "/home/me/.bashrc" None) "me" "CC-BY"
           [ ("jpeg", ["jpg"; "jpe"; "jpeg"]); ("png", ["png"]) ]).
  - reflexivity.
  - reflexivity.
  - intros Hex. unfold listed in Hex. cbn [map snd] in Hex.
    repeat (apply Exists_cons in Hex as [Hin|Hex];
            [by repeat (apply elem_of_cons in Hin as [?|Hin]; [done|]);
                apply elem_of_nil in Hin|]).
    by apply Exists_nil in Hex.
Defined.
